(** * chatia-ofertas-integration: the handlers of [main.py]

    A shallow embedding of the request handlers of the FastAPI application
    in [src/main.py], and the properties of its keyword classification,
    its chunking loop and its listing endpoints.

    Python values are modelled as follows.
    - [int] is unbounded: [Z].
    - [str] is a sequence of Unicode code points: [list char] with
      [char := N].  String literals of the source that are only compared
      or returned (labels, messages) are kept as [string].
    - [Optional[int]] is [option Z].
    - a raised exception is the [Raise] branch of [result]; the handlers'
      [except Exception] turns it into an HTTP 500 response. *)

From Stdlib Require Import ZArith List String Ascii Bool Lia Sorted.
Import ListNotations.

Local Open Scope Z_scope.

(** ** Python builtins used by the handlers *)

Module Py.

Definition char := N.
Definition str := list char.

(** An ASCII literal of the source as a [str]. *)
Definition lit (s : string) : str :=
  map N_of_ascii (list_ascii_of_string s).

Inductive exn :=
| ValueError (msg : string).

Inductive result (A : Type) :=
| Ok (a : A)
| Raise (e : exn).
Arguments Ok {A} a.
Arguments Raise {A} e.

Definition len {A} (s : list A) : Z := Z.of_nat (List.length s).

(** [range(lo, hi, step)]: a zero step raises [ValueError]; otherwise the
    arithmetic progression from [lo], of the length CPython computes. *)
Definition range_len (lo hi step : Z) : Z :=
  if (0 <? step) && (lo <? hi) then 1 + (hi - 1 - lo) / step
  else if (step <? 0) && (hi <? lo) then 1 + (lo - 1 - hi) / (- step)
  else 0.

Definition range (lo hi step : Z) : result (list Z) :=
  if step =? 0 then Raise (ValueError "range() arg 3 must not be zero")
  else Ok (map (fun k => lo + Z.of_nat k * step)
               (seq 0 (Z.to_nat (range_len lo hi step)))).

(** [s[i:j]]: a negative bound counts from the end, and both bounds are
    clamped to [0, len s]. *)
Definition clamp (n i : Z) : Z :=
  if i <? 0 then Z.max 0 (i + n) else Z.min i n.

Definition slice {A} (s : list A) (i j : Z) : list A :=
  let lo := clamp (len s) i in
  let hi := clamp (len s) j in
  firstn (Z.to_nat (hi - lo)) (skipn (Z.to_nat lo) s).

(** [c.isspace()] for one code point, as [str.strip()] tests it. *)
Definition isspace (c : char) : bool :=
  let c := Z.of_N c in
  ((9 <=? c) && (c <=? 13)) || ((28 <=? c) && (c <=? 32))
  || (c =? 133) || (c =? 160) || (c =? 5760)
  || ((8192 <=? c) && (c <=? 8202))
  || (c =? 8232) || (c =? 8233) || (c =? 8239) || (c =? 8287) || (c =? 12288).

Fixpoint lstrip (s : str) : str :=
  match s with
  | c :: s' => if isspace c then lstrip s' else s
  | [] => []
  end.

Definition rstrip (s : str) : str := rev (lstrip (rev s)).

Definition strip (s : str) : str := rstrip (lstrip s).

(** Truth value of a [str]: non-empty. *)
Definition truthy (s : str) : bool :=
  match s with [] => false | _ :: _ => true end.

(** [w in s] for two strings: [w] occurs as a contiguous substring. *)
Fixpoint startswith (s w : str) {struct w} : bool :=
  match w, s with
  | [], _ => true
  | _ :: _, [] => false
  | a :: w', b :: s' => N.eqb a b && startswith s' w'
  end.

Fixpoint contains (s w : str) : bool :=
  startswith s w ||
  match s with
  | [] => false
  | _ :: s' => contains s' w
  end.

(** [any(w in s for w in words)]. *)
Definition any_in (words : list str) (s : str) : bool :=
  existsb (contains s) words.

(** [x or d] on an [Optional[int]]: [None] and [0] are falsy. *)
Definition or_default (x : option Z) (d : Z) : Z :=
  match x with
  | Some v => if v =? 0 then d else v
  | None => d
  end.

End Py.

Import Py.

(** ** The chunking loop of [procesar_pliego] (lines 191-204) *)

Record chunk := mk_chunk {
  id : Z;
  content : str;
  size : Z;
  start_pos : Z;
  end_pos : Z
}.

(** One iteration of the loop body at index [i]. *)
Definition chunk_step (rfp_content : str) (chunk_size : Z)
    (chunks : list chunk) (i : Z) : list chunk :=
  let chunk_content := slice rfp_content i (i + chunk_size) in
  if truthy (strip chunk_content) then
    chunks ++ [ {| id := len chunks + 1;
                   content := chunk_content;
                   size := len chunk_content;
                   start_pos := i;
                   end_pos := Z.min (i + chunk_size) (len rfp_content) |} ]
  else chunks.

(** [for i in range(0, len(rfp_content), chunk_size - overlap): ...] from
    [chunks = []]. *)
Definition segment (rfp_content : str) (chunk_size overlap : Z)
    : result (list chunk) :=
  match range 0 (len rfp_content) (chunk_size - overlap) with
  | Raise e => Raise e
  | Ok idx => Ok (fold_left (chunk_step rfp_content chunk_size) idx [])
  end.

(** ** The runtime the handlers call into

    [str.lower], [uuid.uuid4] and [datetime.datetime.now] are library
    calls.  [str_lower] is kept abstract; the k-th UUID drawn and the k-th
    reading of the clock are given by two oracles, and a [world] counts how
    many of each a process has consumed so far.  The module has no other
    mutable global: [world] is all the state a handler can see or change. *)

Record datetime := mk_datetime {
  isoformat : string;      (* .isoformat() *)
  strftime_ymdhm : string  (* .strftime('%Y%m%d%H%M') *)
}.

Record runtime := mk_runtime {
  str_lower : str -> str;
  uuid4_hex : nat -> string;
  datetime_now : nat -> datetime
}.

Record world := mk_world {
  drawn : nat;   (* UUIDs drawn so far *)
  ticks : nat    (* clock readings so far *)
}.

Definition M (A : Type) : Type := world -> A * world.

Definition ret {A} (a : A) : M A := fun w => (a, w).

Definition bind {A B} (m : M A) (k : A -> M B) : M B :=
  fun w => let (a, w') := m w in k a w'.

Notation "x <- m ;; k" := (bind m (fun x => k))
  (at level 61, m at next level, right associativity).

(** The handlers' [try: ... except Exception as e: raise HTTPException(500,
    detail=str(e))]. *)
Inductive http (A : Type) :=
| HTTP200 (body : A)
| HTTP500 (detail : string).
Arguments HTTP200 {A} body.
Arguments HTTP500 {A} detail.

Definition str_of_exn (e : exn) : string :=
  match e with ValueError msg => msg end.

(** ** Request and response shapes *)

Record PliegoRequest := mk_PliegoRequest {
  rfp_content : str;
  rfp_name : option string;
  auto_generate : option bool;
  chunk_size : option Z;
  chunk_overlap : option Z
}.

(** The pydantic defaults of the optional fields. *)
Definition PliegoRequest_of (text : str) : PliegoRequest :=
  {| rfp_content := text;
     rfp_name := Some "pliego.pdf"%string;
     auto_generate := Some true;
     chunk_size := Some 2000;
     chunk_overlap := Some 200 |}.

Record labels := mk_labels {
  tipo_oferta : string;
  tipo_cliente : string;
  sector : string
}.

Record chunks_info := mk_chunks_info {
  total_chunks : Z;
  info_chunk_size : Z;
  info_chunk_overlap : Z;
  total_characters : Z
}.

(** The payload of [procesar_pliego]; the constant text fields ([message],
    [platform], [processing_time], [next_steps], ...) and the constant
    [confianza] are left out. *)
Record pliego_result := mk_pliego_result {
  pr_offer_id : string;
  pr_status : string;
  pr_rfp_name : option string;
  pr_classification : labels;
  pr_normativas : list string;
  chunks_created : Z;
  pr_chunks_info : chunks_info;
  pr_timestamp : string;
  auto_generation_result : option (list string)
}.

Record estado_result := mk_estado_result {
  er_offer_id : string;
  er_status : string;
  er_classification : labels;
  processing_date : string;
  er_total_chunks : Z;
  chunks_saved : bool;
  final_offer_available : bool
}.

Record oferta := mk_oferta {
  o_offer_id : string;
  o_rfp_name : string;
  o_status : string;
  o_tipo_oferta : string;
  o_tipo_cliente : string;
  created_date : string
}.

Record pagination := mk_pagination {
  pg_limit : Z;
  pg_offset : Z;
  has_more : bool
}.

Record listar_result := mk_listar_result {
  lr_status : string;
  offers : list oferta;
  total_offers : Z;
  lr_pagination : pagination
}.

(** ** The handlers *)

Section Handlers.

Variable rt : runtime.

Definition uuid4 : M string :=
  fun w => (uuid4_hex rt (drawn w), {| drawn := S (drawn w); ticks := ticks w |}).

Definition now : M datetime :=
  fun w => (datetime_now rt (ticks w), {| drawn := drawn w; ticks := S (ticks w) |}).

(** [f"OFF-{uuid.uuid4().hex[:8]}-{suffix}"]. *)
Definition offer_id_of (hex suffix : string) : string :=
  ("OFF-" ++ substring 0 8 hex ++ "-" ++ suffix)%string.

(** *** Keyword classification (lines 160-188) *)

Definition cloud_words : list str :=
  map lit ["cloud"; "azure"; "aws"; "nube"; "saas"; "paas"; "iaas"]%string.
Definition seguridad_words : list str :=
  map lit ["seguridad"; "ciberseguridad"; "firewall"; "antivirus"; "ens"; "esquema"]%string.
Definition telco_words : list str :=
  map lit ["telco"; "telecomunicaciones"; "5g"; "fibra"; "red"; "conectividad"]%string.
Definition publico_words : list str :=
  map lit ["administracion"; "publico"; "ayuntamiento"; "ministerio"; "junta"; "diputacion"]%string.
Definition salud_words : list str :=
  map lit ["salud"; "sanitario"; "hospital"; "clinica"]%string.
Definition educacion_words : list str :=
  map lit ["educacion"; "universidad"; "colegio"; "formacion"]%string.
Definition financiero_words : list str :=
  map lit ["financiero"; "banco"; "fintech"; "seguros"]%string.
Definition industrial_words : list str :=
  map lit ["industria"; "manufacturing"; "produccion"]%string.

Definition detect_tipo_oferta (content_lower : str) : string :=
  if any_in cloud_words content_lower then "Cloud"
  else if any_in seguridad_words content_lower then "Seguridad"
  else if any_in telco_words content_lower then "Telco"
  else "DX".

Definition detect_tipo_cliente (content_lower : str) : string :=
  if any_in publico_words content_lower then "Público"
  else "Privado".

Definition detect_sector (content_lower : str) : string :=
  if any_in salud_words content_lower then "Salud"
  else if any_in educacion_words content_lower then "Educación"
  else if any_in financiero_words content_lower then "Financiero"
  else if any_in industrial_words content_lower then "Industrial"
  else "General".

Definition classify (text : str) : labels :=
  let content_lower := str_lower rt text in
  {| tipo_oferta := detect_tipo_oferta content_lower;
     tipo_cliente := detect_tipo_cliente content_lower;
     sector := detect_sector content_lower |}.

(** *** POST /api/ofertas/procesarPliego *)

Definition effective_chunk_size (request : PliegoRequest) : Z :=
  or_default (chunk_size request) 2000.

Definition effective_overlap (request : PliegoRequest) : Z :=
  or_default (chunk_overlap request) 200.

Definition offer_sections : list string :=
  ["Resumen ejecutivo"; "Análisis de requisitos"; "Propuesta técnica";
   "Metodología"; "Equipo y recursos"; "Cronograma"; "Presupuesto"]%string.

Definition is_true (b : option bool) : bool :=
  match b with Some true => true | _ => false end.

Definition procesar_pliego (request : PliegoRequest) : M (http pliego_result) :=
  hex <- uuid4 ;;
  t0 <- now ;;
  let offer_id := offer_id_of hex (strftime_ymdhm t0) in
  let cl := classify (rfp_content request) in
  let chunk_size := effective_chunk_size request in
  let overlap := effective_overlap request in
  match segment (rfp_content request) chunk_size overlap with
  | Raise e => ret (HTTP500 (str_of_exn e))
  | Ok chunks =>
      t1 <- now ;;
      ret (HTTP200
        {| pr_offer_id := offer_id;
           pr_status := "success";
           pr_rfp_name := rfp_name request;
           pr_classification := cl;
           pr_normativas :=
             if String.eqb (tipo_cliente cl) "Público"
             then ["RGPD"; "ENS"]%string else ["RGPD"]%string;
           chunks_created := len chunks;
           pr_chunks_info :=
             {| total_chunks := len chunks;
                info_chunk_size := chunk_size;
                info_chunk_overlap := overlap;
                total_characters := len (rfp_content request) |};
           pr_timestamp := isoformat t1;
           auto_generation_result :=
             if is_true (auto_generate request)
             then Some offer_sections else None |})
  end.

(** *** POST /api/ofertas/obtenerEstadoOferta *)

Definition obtener_estado_oferta (offer_id : string) : M (http estado_result) :=
  t <- now ;;
  ret (HTTP200
    {| er_offer_id := offer_id;
       er_status := "completed";
       er_classification :=
         {| tipo_oferta := "DX"; tipo_cliente := "Público"; sector := "General" |};
       processing_date := isoformat t;
       er_total_chunks := 5;
       chunks_saved := true;
       final_offer_available := true |}).

(** *** GET /api/ofertas/listarOfertas *)

Definition ofertas_ejemplo : M (list oferta) :=
  h1 <- uuid4 ;;
  t1 <- now ;;
  h2 <- uuid4 ;;
  t2 <- now ;;
  ret [ {| o_offer_id := offer_id_of h1 "202412151200";
           o_rfp_name := "Pliego_Transformacion_Digital.pdf";
           o_status := "completed";
           o_tipo_oferta := "DX";
           o_tipo_cliente := "Público";
           created_date := isoformat t1 |};
        {| o_offer_id := offer_id_of h2 "202412141500";
           o_rfp_name := "Pliego_Cloud_Migration.pdf";
           o_status := "processed";
           o_tipo_oferta := "Cloud";
           o_tipo_cliente := "Privado";
           created_date := isoformat t2 |} ].

Definition listar_ofertas (limit offset : Z) : M (http listar_result) :=
  ofertas <- ofertas_ejemplo ;;
  ret (HTTP200
    {| lr_status := "success";
       offers := slice ofertas offset (offset + limit);
       total_offers := len ofertas;
       lr_pagination :=
         {| pg_limit := limit;
            pg_offset := offset;
            has_more := offset + limit <? len ofertas |} |}).

(** *** A process serving a sequence of requests *)

Inductive request :=
| ProcesarPliego (r : PliegoRequest)
| ObtenerEstadoOferta (offer_id : string)
| ListarOfertas (limit offset : Z).

Inductive response :=
| PliegoResponse (r : http pliego_result)
| EstadoResponse (r : http estado_result)
| ListarResponse (r : http listar_result).

Definition handle (q : request) : M response :=
  match q with
  | ProcesarPliego r => a <- procesar_pliego r ;; ret (PliegoResponse a)
  | ObtenerEstadoOferta o => a <- obtener_estado_oferta o ;; ret (EstadoResponse a)
  | ListarOfertas l o => a <- listar_ofertas l o ;; ret (ListarResponse a)
  end.

Fixpoint serve (qs : list request) : M (list response) :=
  match qs with
  | [] => ret []
  | q :: qs' => a <- handle q ;; rest <- serve qs' ;; ret (a :: rest)
  end.

End Handlers.

(** A runtime for evaluating the handlers on ASCII inputs: [str.lower] on
    ASCII code points, a fixed UUID and a fixed clock. *)
Definition ascii_lower (s : str) : str :=
  map (fun c => if (65 <=? c)%N && (c <=? 90)%N then (c + 32)%N else c) s.

Definition sample_runtime : runtime :=
  {| str_lower := ascii_lower;
     uuid4_hex := fun _ => "0123456789abcdef0123456789abcdef"%string;
     datetime_now := fun _ =>
       {| isoformat := "2024-12-15T12:00:00"; strftime_ymdhm := "202412151200" |} |}.

Definition w0 : world := {| drawn := 0; ticks := 0 |}.

(** ** The other handlers of the [/api/ofertas] group that catch exceptions

    [generar_oferta] (lines 264-301) and [recupera_fichero] (lines 380-407);
    as above, the constant text fields are left out of the payloads. *)

Record oferta_generada := mk_oferta_generada {
  og_offer_id : string;
  og_status : string;
  resumen_ejecutivo : string;
  og_timestamp : string
}.

Record file_info := mk_file_info {
  filename : string;
  fi_file_type : option string;
  fi_exists : bool;
  size_estimate : Z;
  download_available : bool;
  last_modified : string
}.

Record fichero_result := mk_fichero_result {
  fr_offer_id : string;
  fr_status : string;
  fr_file_info : file_info;
  fr_timestamp : string
}.

Inductive ofertas_request :=
| Basic (q : request)
| GenerarOferta (offer_id : string)
| RecuperaFichero (offer_id : string) (file_type : option string).

Inductive ofertas_response :=
| BasicResponse (r : response)
| OfertaResponse (r : http oferta_generada)
| FicheroResponse (r : http fichero_result).

Section OtherHandlers.

Variable rt : runtime.

Definition generar_oferta (offer_id : string) : M (http oferta_generada) :=
  t <- now rt ;;
  ret (HTTP200
    {| og_offer_id := offer_id;
       og_status := "success";
       resumen_ejecutivo := ("Propuesta integral para el proyecto " ++ offer_id)%string;
       og_timestamp := isoformat t |}).

Definition recupera_fichero (offer_id : string) (file_type : option string)
    : M (http fichero_result) :=
  t1 <- now rt ;;
  t2 <- now rt ;;
  ret (HTTP200
    {| fr_offer_id := offer_id;
       fr_status := "success";
       fr_file_info :=
         {| filename := ("oferta_" ++ offer_id ++ ".md")%string;
            fi_file_type := file_type;
            fi_exists := true;
            size_estimate := 15000;
            download_available := true;
            last_modified := isoformat t1 |};
       fr_timestamp := isoformat t2 |}).

Definition ofertas_handle (q : ofertas_request) : M ofertas_response :=
  match q with
  | Basic q' => a <- handle rt q' ;; ret (BasicResponse a)
  | GenerarOferta o => a <- generar_oferta o ;; ret (OfertaResponse a)
  | RecuperaFichero o f => a <- recupera_fichero o f ;; ret (FicheroResponse a)
  end.

Fixpoint ofertas_serve (qs : list ofertas_request) : M (list ofertas_response) :=
  match qs with
  | [] => ret []
  | q :: qs' =>
      a <- ofertas_handle q ;; rest <- ofertas_serve qs' ;; ret (a :: rest)
  end.

End OtherHandlers.

(** * Vocabulary of the properties *)

(** [w] occurs in [s] as a contiguous substring. *)
Definition occurs (w s : str) : Prop :=
  exists pre post, s = pre ++ w ++ post.

(** The test of line 197 and the record of lines 198-204 at index [i],
    numbered [k]. *)
Definition nonblank_at (text : str) (cs i : Z) : bool :=
  truthy (strip (slice text i (i + cs))).

Definition chunk_at (text : str) (cs k i : Z) : chunk :=
  {| id := k;
     content := slice text i (i + cs);
     size := len (slice text i (i + cs));
     start_pos := i;
     end_pos := Z.min (i + cs) (len text) |}.

(** The records of a list of indices, numbered from [k]. *)
Fixpoint number (text : str) (cs k : Z) (idx : list Z) : list chunk :=
  match idx with
  | [] => []
  | i :: idx' => chunk_at text cs k i :: number text cs (k + 1) idx'
  end.

(** The indices [range(0, n, step)] visits when [step] is positive. *)
Definition starts (n step : Z) : list Z :=
  map (fun k => Z.of_nat k * step) (seq 0 (Z.to_nat ((n + step - 1) / step))).

(** What a window list shows of itself: id, start and end of each window. *)
Definition spans (ws : list chunk) : list (Z * Z * Z) :=
  map (fun c => (id c, start_pos c, end_pos c)) ws.

Definition result_map {A B} (f : A -> B) (r : result A) : result B :=
  match r with Ok a => Ok (f a) | Raise e => Raise e end.

(** The window list covers every offset of [0, n). *)
Definition covers (ws : list chunk) (n : Z) : Prop :=
  forall p, 0 <= p < n ->
    exists w, In w ws /\ start_pos w <= p < end_pos w.

(** No index of the loop yields a whitespace-only slice. *)
Definition no_blank_slice (text : str) (cs ov : Z) : bool :=
  forallb (nonblank_at text cs) (starts (len text) (cs - ov)).

(** The part of a response that does not come from the UUID source or the
    clock. *)
Definition static_oferta (o : oferta) : oferta :=
  {| o_offer_id := "";
     o_rfp_name := o_rfp_name o;
     o_status := o_status o;
     o_tipo_oferta := o_tipo_oferta o;
     o_tipo_cliente := o_tipo_cliente o;
     created_date := "" |}.

Definition http_map {A B} (f : A -> B) (r : http A) : http B :=
  match r with
  | HTTP200 b => HTTP200 (f b)
  | HTTP500 d => HTTP500 d
  end.

Definition static_part (r : response) : response :=
  match r with
  | PliegoResponse a =>
      PliegoResponse
        (http_map (fun b =>
           {| pr_offer_id := "";
              pr_status := pr_status b;
              pr_rfp_name := pr_rfp_name b;
              pr_classification := pr_classification b;
              pr_normativas := pr_normativas b;
              chunks_created := chunks_created b;
              pr_chunks_info := pr_chunks_info b;
              pr_timestamp := "";
              auto_generation_result := auto_generation_result b |}) a)
  | EstadoResponse a =>
      EstadoResponse
        (http_map (fun b =>
           {| er_offer_id := er_offer_id b;
              er_status := er_status b;
              er_classification := er_classification b;
              processing_date := "";
              er_total_chunks := er_total_chunks b;
              chunks_saved := chunks_saved b;
              final_offer_available := final_offer_available b |}) a)
  | ListarResponse a =>
      ListarResponse
        (http_map (fun b =>
           {| lr_status := lr_status b;
              offers := map static_oferta (offers b);
              total_offers := total_offers b;
              lr_pagination := lr_pagination b |}) a)
  end.

(** The response to [q] by a process that has served [history] before,
    starting from [w]. *)
Definition response_after (rt : runtime) (history : list request)
    (q : request) (w : world) : response :=
  fst (handle rt q (snd (serve rt history w))).

(** The two example records without their UUID and clock fields. *)
Definition static_ejemplos : list oferta :=
  [ {| o_offer_id := ""; o_rfp_name := "Pliego_Transformacion_Digital.pdf";
       o_status := "completed"; o_tipo_oferta := "DX";
       o_tipo_cliente := "Público"; created_date := "" |};
    {| o_offer_id := ""; o_rfp_name := "Pliego_Cloud_Migration.pdf";
       o_status := "processed"; o_tipo_oferta := "Cloud";
       o_tipo_cliente := "Privado"; created_date := "" |} ].

(** The static part of a response of the whole group. *)
Definition ofertas_static (r : ofertas_response) : ofertas_response :=
  match r with
  | BasicResponse a => BasicResponse (static_part a)
  | OfertaResponse a =>
      OfertaResponse
        (http_map (fun b =>
           {| og_offer_id := og_offer_id b;
              og_status := og_status b;
              resumen_ejecutivo := resumen_ejecutivo b;
              og_timestamp := "" |}) a)
  | FicheroResponse a =>
      FicheroResponse
        (http_map (fun b =>
           {| fr_offer_id := fr_offer_id b;
              fr_status := fr_status b;
              fr_file_info :=
                {| filename := filename (fr_file_info b);
                   fi_file_type := fi_file_type (fr_file_info b);
                   fi_exists := fi_exists (fr_file_info b);
                   size_estimate := size_estimate (fr_file_info b);
                   download_available := download_available (fr_file_info b);
                   last_modified := "" |};
              fr_timestamp := "" |}) a)
  end.

(** The handler's [except] clause raised [HTTPException(500)]. *)
Definition is_500 (r : ofertas_response) : bool :=
  match r with
  | BasicResponse (PliegoResponse (HTTP500 _))
  | BasicResponse (EstadoResponse (HTTP500 _))
  | BasicResponse (ListarResponse (HTTP500 _))
  | OfertaResponse (HTTP500 _)
  | FicheroResponse (HTTP500 _) => true
  | _ => false
  end.

(** The page of offers of a listing response, without the UUID and clock
    fields; [None] on an HTTP 500. *)
Definition page_of (r : http listar_result) : option (list oferta) :=
  match r with
  | HTTP200 b => Some (map static_oferta (offers b))
  | HTTP500 _ => None
  end.

Definition has_more_of (r : http listar_result) : option bool :=
  match r with
  | HTTP200 b => Some (has_more (lr_pagination b))
  | HTTP500 _ => None
  end.

(** Some keyword of [words] occurs in [s]. *)
Definition mentions (words : list str) (s : str) : Prop :=
  exists k, In k words /\ occurs k s.

(** * Properties *)

(** ** Facts about the builtins *)

Module PyFacts.

Lemma len_nonneg {A} (s : list A) : 0 <= len s.
Proof. unfold len. lia. Qed.

Lemma len_app {A} (s t : list A) : len (s ++ t) = len s + len t.
Proof. unfold len. rewrite length_app. lia. Qed.

(** *** Substring search *)

Lemma startswith_spec (w s : str) :
  startswith s w = true <-> exists post, s = w ++ post.
Proof.
  revert s. induction w as [|a w IH]; intros s; simpl.
  - split; [intros _; now exists s | reflexivity].
  - destruct s as [|b s].
    + split; [discriminate | intros [post H]; discriminate H].
    + rewrite andb_true_iff, N.eqb_eq, IH. split.
      * intros [-> [post ->]]. now exists post.
      * intros [post H]. injection H as -> ->. split; [reflexivity | now exists post].
Qed.

Lemma contains_spec (w s : str) : contains s w = true <-> occurs w s.
Proof.
  unfold occurs. induction s as [|b s IH].
  - simpl. rewrite orb_false_r, startswith_spec. split.
    + intros [post H]. now exists [], post.
    + intros [pre [post H]]. destruct pre; simpl in H.
      * now exists post.
      * discriminate H.
  - change (contains (b :: s) w) with (startswith (b :: s) w || contains s w).
    rewrite orb_true_iff, startswith_spec, IH. split.
    + intros [[post H] | [pre [post H]]].
      * now exists [], post.
      * exists (b :: pre), post. simpl. now rewrite H.
    + intros [pre [post H]]. destruct pre as [|c pre]; simpl in H.
      * left. now exists post.
      * right. injection H as _ H. now exists pre, post.
Qed.

Lemma any_in_true (words : list str) (s w : str) :
  In w words -> occurs w s -> any_in words s = true.
Proof.
  intros Hin Hocc. unfold any_in. apply existsb_exists.
  exists w. split; [assumption | now apply contains_spec].
Qed.

Lemma any_in_false (words : list str) (s : str) :
  (forall w, In w words -> ~ occurs w s) -> any_in words s = false.
Proof.
  intros H. destruct (any_in words s) eqn:E; [|reflexivity].
  unfold any_in in E. apply existsb_exists in E as [w [Hin Hc]].
  apply contains_spec in Hc. now destruct (H w Hin).
Qed.

(** *** [strip] is falsy exactly on whitespace-only strings *)

Lemma lstrip_nil (s : str) : lstrip s = [] <-> forallb isspace s = true.
Proof.
  induction s as [|c s IH]; simpl; [tauto|].
  destruct (isspace c); simpl; [exact IH | split; discriminate].
Qed.

Lemma lstrip_blank (s : str) :
  forallb isspace (lstrip s) = forallb isspace s.
Proof.
  induction s as [|c s IH]; simpl; [reflexivity|].
  destruct (isspace c) eqn:E; simpl; [exact IH | now rewrite E].
Qed.

Lemma forallb_rev {A} (f : A -> bool) (l : list A) :
  forallb f (rev l) = forallb f l.
Proof.
  induction l as [|a l IH]; simpl; [reflexivity|].
  rewrite forallb_app, IH. simpl. rewrite andb_true_r. apply andb_comm.
Qed.

Lemma truthy_strip (s : str) :
  truthy (strip s) = negb (forallb isspace s).
Proof.
  assert (H : strip s = [] <-> forallb isspace s = true).
  { unfold strip, rstrip. rewrite <- (lstrip_blank s), <- (forallb_rev isspace (lstrip s)).
    rewrite <- lstrip_nil. split.
    - intros H. apply (f_equal (@rev char)) in H. now rewrite rev_involutive in H.
    - intros ->. reflexivity. }
  destruct (strip s) eqn:E, (forallb isspace s) eqn:F; simpl; try reflexivity.
  - now destruct H as [H _]; specialize (H eq_refl).
  - now destruct H as [_ H]; specialize (H eq_refl).
Qed.

(** *** Slices with non-negative bounds *)

Lemma slice_from (A : Type) (s : list A) (i j : Z) :
  0 <= i -> 0 <= j ->
  slice s i j =
  firstn (Z.to_nat (Z.min j (len s) - Z.min i (len s)))
         (skipn (Z.to_nat (Z.min i (len s))) s).
Proof.
  intros Hi Hj. unfold slice, clamp.
  destruct (Z.ltb_spec i 0), (Z.ltb_spec j 0); try lia. reflexivity.
Qed.

Lemma slice_prefix (A : Type) (s : list A) (j : Z) :
  len s <= j -> slice s 0 j = s.
Proof.
  intros Hj. pose proof (len_nonneg s).
  rewrite slice_from by lia.
  rewrite Z.min_r, Z.min_l by lia. simpl.
  apply firstn_all2. unfold len in *. lia.
Qed.

Lemma slice_suffix (A : Type) (s : list A) (i j : Z) :
  0 <= i <= len s -> len s <= j -> slice s i j = skipn (Z.to_nat i) s.
Proof.
  intros Hi Hj. rewrite slice_from by lia.
  rewrite Z.min_r, Z.min_l by lia.
  apply firstn_all2. rewrite length_skipn. unfold len in *. lia.
Qed.

Lemma slice_nth_error (A : Type) (s : list A) (i j p : Z) :
  0 <= i -> i <= p -> p < j -> p < len s ->
  nth_error (slice s i j) (Z.to_nat (p - i)) = nth_error s (Z.to_nat p).
Proof.
  intros Hi Hp Hj Hn. rewrite slice_from by lia.
  rewrite (Z.min_l i) by lia.
  rewrite nth_error_firstn.
  destruct (Nat.ltb_spec (Z.to_nat (p - i)) (Z.to_nat (Z.min j (len s) - i))) as [_|H]; [|lia].
  rewrite nth_error_skipn. f_equal. lia.
Qed.

(** *** [range] with a positive step from 0 *)

Lemma range_len_pos (n step : Z) :
  0 < step -> 0 <= n -> range_len 0 n step = (n + step - 1) / step.
Proof.
  intros Hs Hn. unfold range_len.
  destruct (Z.ltb_spec 0 step); [|lia]. cbn [andb].
  destruct (Z.ltb_spec 0 n).
  - replace (n + step - 1) with ((n - 1 - 0) + 1 * step) by lia.
    rewrite Z.div_add by lia. lia.
  - destruct (Z.ltb_spec step 0); [lia|]. cbn [andb].
    replace n with 0 by lia. symmetry. apply Z.div_small. lia.
Qed.

Lemma range_pos (n step : Z) :
  0 < step -> 0 <= n ->
  range 0 n step =
  Ok (map (fun k => Z.of_nat k * step) (seq 0 (Z.to_nat ((n + step - 1) / step)))).
Proof.
  intros Hs Hn. unfold range.
  destruct (Z.eqb_spec step 0); [lia|].
  now rewrite range_len_pos.
Qed.

Lemma range_count_spec (n step : Z) (k : nat) :
  0 < step -> 0 <= n ->
  (k < Z.to_nat ((n + step - 1) / step))%nat <-> Z.of_nat k * step < n.
Proof.
  intros Hs Hn.
  assert (H0 : 0 <= (n + step - 1) / step) by (apply Z.div_pos; lia).
  pose proof (Z.mul_div_le (n + step - 1) step Hs) as Hle.
  pose proof (Z.mul_succ_div_gt (n + step - 1) step Hs) as Hgt.
  split; intros H; nia.
Qed.

End PyFacts.

Import PyFacts.

(** ** The chunking loop in closed form *)

Section Chunking.

Variable text : str.
Variable cs : Z.

Lemma fold_chunk_step (idx : list Z) (acc : list chunk) :
  fold_left (chunk_step text cs) idx acc =
  acc ++ number text cs (len acc + 1) (filter (nonblank_at text cs) idx).
Proof.
  revert acc. induction idx as [|i idx IH]; intros acc; simpl.
  - now rewrite app_nil_r.
  - rewrite IH. unfold chunk_step. fold (nonblank_at text cs i).
    destruct (nonblank_at text cs i); [|reflexivity].
    rewrite <- app_assoc, len_app. reflexivity.
Qed.

Lemma number_length (k : Z) (idx : list Z) :
  List.length (number text cs k idx) = List.length idx.
Proof. revert k. induction idx; intros k; simpl; auto. Qed.

Lemma number_ids (k : Z) (idx : list Z) :
  map id (number text cs k idx) =
  map (fun j => k + Z.of_nat j) (seq 0 (List.length idx)).
Proof.
  revert k. induction idx as [|i idx IH]; intros k; simpl; [reflexivity|].
  rewrite IH, <- seq_shift, map_map. f_equal; [lia|].
  apply map_ext. intros j. lia.
Qed.

Lemma number_starts (k : Z) (idx : list Z) :
  map start_pos (number text cs k idx) = idx.
Proof. revert k. induction idx; intros k; simpl; [|rewrite IHidx]; reflexivity. Qed.

Lemma nth_error_number (k : Z) (idx : list Z) (j : nat) :
  nth_error (number text cs k idx) j =
  option_map (chunk_at text cs (k + Z.of_nat j)) (nth_error idx j).
Proof.
  revert k j. induction idx as [|i idx IH]; intros k [|j]; simpl; try reflexivity.
  - now rewrite Z.add_0_r.
  - rewrite IH. do 2 f_equal. lia.
Qed.

Lemma In_number (k i : Z) (idx : list Z) :
  In i idx -> exists k', In (chunk_at text cs k' i) (number text cs k idx).
Proof.
  revert k. induction idx as [|i' idx IH]; intros k; simpl; [tauto|].
  intros [-> | H].
  - exists k. now left.
  - destruct (IH (k + 1) H) as [k' Hk']. exists k'. now right.
Qed.

End Chunking.

Lemma segment_closed_form (text : str) (cs ov : Z) :
  0 < cs - ov ->
  segment text cs ov =
  Ok (number text cs 1 (filter (nonblank_at text cs) (starts (len text) (cs - ov)))).
Proof.
  intros Hstep. unfold segment.
  rewrite range_pos by (auto using len_nonneg).
  now rewrite fold_chunk_step.
Qed.

Lemma In_starts (n step i : Z) :
  0 < step -> 0 <= n ->
  In i (starts n step) <-> exists k : nat, i = Z.of_nat k * step /\ i < n.
Proof.
  intros Hs Hn. unfold starts. rewrite in_map_iff. split.
  - intros [k [<- Hk]]. apply in_seq in Hk. exists k. split; [reflexivity|].
    apply range_count_spec; lia.
  - intros [k [-> Hk]]. exists k. split; [reflexivity|].
    apply in_seq. split; [lia|]. apply range_count_spec; lia.
Qed.

Lemma nth_error_starts (n step : Z) (j : nat) (i : Z) :
  0 < step -> 0 <= n ->
  nth_error (starts n step) j = Some i -> i = Z.of_nat j * step /\ i < n.
Proof.
  intros Hs Hn H. unfold starts in H.
  rewrite nth_error_map in H.
  destruct (nth_error (seq 0 _) j) as [k|] eqn:E; [|discriminate].
  injection H as <-.
  pose proof (nth_error_In _ _ E) as Hin. apply in_seq in Hin.
  assert (Hlt : (j < List.length (seq 0 (Z.to_nat ((n + step - 1) / step))))%nat).
  { apply nth_error_Some. congruence. }
  rewrite length_seq in Hlt.
  rewrite (nth_error_nth' _ 0%nat) in E by (now rewrite length_seq).
  rewrite seq_nth in E by assumption. injection E as <-.
  split; [reflexivity|]. apply range_count_spec; lia.
Qed.

Lemma starts_sorted (n step : Z) :
  0 < step -> StronglySorted Z.lt (starts n step).
Proof.
  intros Hs. unfold starts. generalize (Z.to_nat ((n + step - 1) / step)) as m.
  generalize 0%nat as a. intros a m. revert a.
  induction m as [|m IH]; intros a; simpl; constructor.
  - apply IH.
  - apply Forall_forall. intros x Hx.
    apply in_map_iff in Hx as [k [<- Hk]]. apply in_seq in Hk. nia.
Qed.

Lemma StronglySorted_filter {A} (R : A -> A -> Prop) (f : A -> bool) (l : list A) :
  StronglySorted R l -> StronglySorted R (filter f l).
Proof.
  induction 1 as [|a l Hl IH Ha]; simpl; [constructor|].
  destruct (f a); [|assumption].
  constructor; [assumption|].
  apply Forall_forall. intros x Hx. apply filter_In in Hx as [Hx _].
  rewrite Forall_forall in Ha. now apply Ha.
Qed.

Lemma filter_all {A} (f : A -> bool) (l : list A) :
  forallb f l = true -> filter f l = l.
Proof.
  induction l as [|a l IH]; simpl; [reflexivity|].
  intros H. apply andb_true_iff in H as [-> H]. now rewrite IH.
Qed.

(** ** Properties of [segment] *)

(** C6: for a valid configuration the loop returns, the ids of the windows
    are 1, 2, ..., N in emission order and the start offsets are strictly
    increasing; skipped whitespace-only slices consume no id. *)
Theorem segment_ids_contiguous (text : str) (cs ov : Z) :
  0 < cs -> 0 <= ov < cs ->
  exists ws, segment text cs ov = Ok ws /\
    map id ws = map Z.of_nat (seq 1 (List.length ws)) /\
    StronglySorted Z.lt (map start_pos ws).
Proof.
  intros Hcs Hov. eexists. split; [apply segment_closed_form; lia|].
  split.
  - rewrite number_ids, number_length, <- seq_shift, map_map.
    apply map_ext. intros j. lia.
  - rewrite number_starts. apply StronglySorted_filter, starts_sorted. lia.
Qed.

Lemma segment_ids_contiguous_witness :
  exists ws, segment (lit "a     b") 3 1 = Ok ws /\
    map id ws = map Z.of_nat (seq 1 (List.length ws)) /\
    StronglySorted Z.lt (map start_pos ws).
Proof. apply (segment_ids_contiguous (lit "a     b") 3 1); lia. Defined.

(** The slice [2, 5) of ["a     b"] is skipped and the ids stay 1, 2, 3. *)
Example segment_skips_blank_slice :
  result_map spans (segment (lit "a     b") 3 1) = Ok [(1, 0, 3); (2, 4, 7); (3, 6, 7)].
Proof. reflexivity. Qed.

(** C7: the empty text yields no window and no error, for every
    configuration whose stride is not zero, so for every configuration the
    precondition admits; [segment "" 2000 200] is the instance below. *)
Theorem segment_empty (cs ov : Z) :
  cs <> ov -> segment [] cs ov = Ok [].
Proof.
  intros Hne. unfold segment, range.
  destruct (Z.eqb_spec (cs - ov) 0) as [H|_]; [lia|].
  unfold range_len. change (len (@nil char)) with 0.
  rewrite Z.ltb_irrefl, !andb_false_r. reflexivity.
Qed.

Lemma segment_empty_default : segment [] 2000 200 = Ok [].
Proof. apply (segment_empty 2000 200). lia. Defined.

(** C2, as the code has it: a stride of zero makes [range] raise, whatever
    the text; a negative stride makes the loop run zero times, and the
    call returns an empty list. *)
Theorem segment_nonpositive_stride (text : str) (cs ov : Z) :
  cs <= ov ->
  segment text cs ov =
  if cs =? ov then Raise (ValueError "range() arg 3 must not be zero")
  else Ok [].
Proof.
  intros Hle. unfold segment, range.
  destruct (Z.eqb_spec cs ov) as [->|Hne].
  - now rewrite Z.sub_diag.
  - destruct (Z.eqb_spec (cs - ov) 0) as [H|_]; [lia|].
    unfold range_len. pose proof (len_nonneg text).
    destruct (Z.ltb_spec 0 (cs - ov)); [lia|].
    destruct (Z.ltb_spec (len text) 0); [lia|].
    rewrite andb_false_r. reflexivity.
Qed.

Lemma segment_nonpositive_stride_witness :
  segment (lit "abcdefghijk") 10 10 =
  Raise (ValueError "range() arg 3 must not be zero").
Proof. apply (segment_nonpositive_stride (lit "abcdefghijk") 10 10). lia. Defined.

(** C2 as stated fails: with overlap 10 above window size 5 nothing is
    rejected, and the handler answers 200 with zero chunks for a non-empty
    text. *)
Lemma segment_negative_stride_accepted :
  segment (lit "abc") 5 10 = Ok [] /\
  exists res,
    fst (procesar_pliego sample_runtime
           {| rfp_content := lit "abc"; rfp_name := None; auto_generate := None;
              chunk_size := Some 5; chunk_overlap := Some 10 |} w0)
    = HTTP200 res /\ chunks_created res = 0.
Proof.
  split; [reflexivity|]. eexists. split; [lazy; reflexivity | reflexivity].
Qed.

(** The zero stride surfaces as HTTP 500 with [range]'s message. *)
Lemma procesar_pliego_zero_stride (rt : runtime) (request : PliegoRequest) (w : world) :
  effective_chunk_size request = effective_overlap request ->
  fst (procesar_pliego rt request w) =
  HTTP500 "range() arg 3 must not be zero".
Proof.
  intros H. unfold procesar_pliego, bind, uuid4, now. cbn [fst snd].
  unfold segment, range. rewrite H, Z.sub_diag. reflexivity.
Qed.

(** *** Short texts under the default configuration *)

(** C1 as stated fails: 1801 letters fit in one window of 2000, yet the
    stride of 1800 starts a second window at offset 1800. *)
Lemma segment_1801_two_windows :
  len (repeat 97%N 1801) <= 2000 /\
  truthy (strip (repeat 97%N 1801)) = true /\
  result_map spans (segment (repeat 97%N 1801) 2000 200)
  = Ok [(1, 0, 1801); (2, 1800, 1801)].
Proof.
  split; [vm_compute; discriminate|].
  split; vm_compute; reflexivity.
Qed.

Lemma starts_one (n step : Z) : 0 < n <= step -> starts n step = [0].
Proof.
  intros H. unfold starts.
  replace ((n + step - 1) / step) with 1; [reflexivity|].
  apply Z.div_unique with (r := n - 1); lia.
Qed.

Lemma starts_two (n step : Z) :
  step < n <= 2 * step -> starts n step = [0; step].
Proof.
  intros H. unfold starts.
  replace ((n + step - 1) / step) with 2.
  - change (Z.to_nat 2) with 2%nat. cbn [seq map].
    replace (Z.of_nat 1 * step) with step by lia. reflexivity.
  - apply Z.div_unique with (r := n - step - 1); lia.
Qed.

Lemma truthy_nonempty (s : str) : truthy (strip s) = true -> 0 < len s.
Proof.
  destruct s; [discriminate|]. intros _. unfold len. simpl. lia.
Qed.

(** C1, amended: a text of at most 2000 characters with non-whitespace
    content always yields a first window spanning the whole text; it is the
    only window when the text has at most 1800 characters (the stride), and
    otherwise a second window over [1800, len) follows unless that tail is
    whitespace-only. *)
Theorem segment_short_text (text : str) :
  len text <= 2000 -> truthy (strip text) = true ->
  exists rest,
    segment text 2000 200 =
      Ok ({| id := 1; content := text; size := len text;
             start_pos := 0; end_pos := len text |} :: rest) /\
    (len text <= 1800 -> rest = []) /\
    (1800 < len text ->
     rest = if truthy (strip (skipn 1800 text))
            then [ {| id := 2; content := skipn 1800 text;
                      size := len text - 1800;
                      start_pos := 1800; end_pos := len text |} ]
            else []).
Proof.
  intros Hlen Hnb. pose proof (truthy_nonempty text Hnb) as Hpos.
  rewrite segment_closed_form by lia.
  assert (Hfirst : nonblank_at text 2000 0 = true).
  { unfold nonblank_at. now rewrite slice_prefix by lia. }
  assert (Hc1 : chunk_at text 2000 1 0 =
                {| id := 1; content := text; size := len text;
                   start_pos := 0; end_pos := len text |}).
  { unfold chunk_at. rewrite slice_prefix by lia. f_equal. lia. }
  change (2000 - 200) with 1800.
  destruct (Z.le_gt_cases (len text) 1800) as [Hs|Hl].
  - rewrite starts_one by lia. simpl. rewrite Hfirst. simpl. rewrite Hc1.
    exists []. split; [reflexivity|]. split; [reflexivity | lia].
  - rewrite starts_two by lia. simpl filter. rewrite Hfirst.
    assert (Htail : slice text 1800 (1800 + 2000) = skipn 1800 text).
    { rewrite slice_suffix by lia. reflexivity. }
    assert (Hc2 : chunk_at text 2000 2 1800 =
                  {| id := 2; content := skipn 1800 text;
                     size := len text - 1800;
                     start_pos := 1800; end_pos := len text |}).
    { unfold chunk_at. rewrite Htail, Z.min_r by lia.
      replace (len (skipn 1800 text)) with (len text - 1800); [reflexivity|].
      unfold len in *. rewrite length_skipn. lia. }
    unfold nonblank_at at 1. rewrite Htail.
    eexists. split; [|split; [lia | intros _; reflexivity]].
    destruct (truthy (strip (skipn 1800 text))); simpl; rewrite Hc1, ?Hc2; reflexivity.
Qed.

Lemma segment_short_text_witness :
  exists rest,
    segment (lit "hola mundo") 2000 200 =
      Ok ({| id := 1; content := lit "hola mundo"; size := len (lit "hola mundo");
             start_pos := 0; end_pos := len (lit "hola mundo") |} :: rest) /\
    (len (lit "hola mundo") <= 1800 -> rest = []) /\
    (1800 < len (lit "hola mundo") ->
     rest = if truthy (strip (skipn 1800 (lit "hola mundo")))
            then [ {| id := 2; content := skipn 1800 (lit "hola mundo");
                      size := len (lit "hola mundo") - 1800;
                      start_pos := 1800; end_pos := len (lit "hola mundo") |} ]
            else []).
Proof.
  apply (segment_short_text (lit "hola mundo")).
  - vm_compute. discriminate.
  - reflexivity.
Defined.

(** *** Coverage and overlaps *)

(** C3 as stated fails: the whitespace-only slice [2, 5) of ["a     b"] is
    skipped, so no window contains offset 3. *)
Lemma segment_gap :
  exists ws, segment (lit "a     b") 3 1 = Ok ws /\ ~ covers ws (len (lit "a     b")).
Proof.
  eexists. split; [reflexivity|]. intros H.
  destruct (H 3) as [w [Hin Hw]].
  - change (len (lit "a     b")) with 7. lia.
  - simpl in Hin. destruct Hin as [<-|[<-|[<-|[]]]]; simpl in Hw; lia.
Qed.

(** It also fails without any whitespace: with overlap above half the
    window size, several trailing windows are truncated by the end of the
    text, and windows 2 and 3 below, neither of them final, share 7
    characters and not 8. *)
Example segment_truncated_overlap :
  result_map spans (segment (lit "abcdefghijk") 10 8)
  = Ok [(1, 0, 10); (2, 2, 11); (3, 4, 11); (4, 6, 11); (5, 8, 11); (6, 10, 11)].
Proof. reflexivity. Qed.

(** The spec's example: stride 5 over 23 letters. *)
Example segment_23_letters :
  result_map spans (segment (lit "abcdefghijklmnopqrstuvw") 10 5)
  = Ok [(1, 0, 10); (2, 5, 15); (3, 10, 20); (4, 15, 23); (5, 20, 23)].
Proof. reflexivity. Qed.

(** A slice holding a non-whitespace character passes the test of line 197. *)
Lemma nonspace_nonblank (text : str) (cs i : Z) (p : nat) (c : char) :
  nth_error text p = Some c -> isspace c = false ->
  0 <= i <= Z.of_nat p -> Z.of_nat p < i + cs ->
  nonblank_at text cs i = true.
Proof.
  intros Hp Hc Hi Hcs. unfold nonblank_at. rewrite truthy_strip.
  destruct (forallb isspace (slice text i (i + cs))) eqn:E; [|reflexivity].
  assert (Hlt : Z.of_nat p < len text).
  { unfold len. apply Nat2Z.inj_lt, nth_error_Some. congruence. }
  pose proof (slice_nth_error _ text i (i + cs) (Z.of_nat p)
                ltac:(lia) ltac:(lia) ltac:(lia) Hlt) as Hs.
  rewrite Nat2Z.id, Hp in Hs. apply nth_error_In in Hs.
  rewrite forallb_forall in E. rewrite (E c Hs) in Hc. discriminate.
Qed.

(** The window that starts at the last stride index at or before [p]
    contains [p], when it is emitted. *)
Lemma window_for (text : str) (cs step p : Z) :
  0 < step <= cs -> 0 <= p < len text ->
  nonblank_at text cs (p / step * step) = true ->
  exists w,
    In w (number text cs 1 (filter (nonblank_at text cs) (starts (len text) step)))
    /\ start_pos w <= p < end_pos w.
Proof.
  intros Hs Hp Hnb.
  assert (Hq : 0 <= p / step) by (apply Z.div_pos; lia).
  assert (Hlo : p / step * step <= p) by (rewrite Z.mul_comm; apply Z.mul_div_le; lia).
  assert (Hhi : p < p / step * step + step).
  { pose proof (Z.mul_succ_div_gt p step ltac:(lia)). lia. }
  assert (Hin : In (p / step * step) (starts (len text) step)).
  { apply In_starts; [lia | apply len_nonneg |].
    exists (Z.to_nat (p / step)). rewrite Z2Nat.id by assumption. lia. }
  destruct (In_number text cs 1 (p / step * step)
              (filter (nonblank_at text cs) (starts (len text) step))) as [k Hk].
  { apply filter_In. now split. }
  exists (chunk_at text cs k (p / step * step)). split; [assumption|].
  simpl. lia.
Qed.

(** C3, amended: for a valid configuration the windows contain every
    non-whitespace character of the text.  When no slice is whitespace-only
    they cover [0, len) without gaps, consecutive windows start one stride
    apart, and they share min(overlap, len - start of the later window)
    characters: exactly [overlap] while the earlier window is full-size. *)
Theorem segment_coverage (text : str) (cs ov : Z) :
  0 < cs -> 0 <= ov < cs ->
  exists ws, segment text cs ov = Ok ws /\
    (forall p c, nth_error text p = Some c -> isspace c = false ->
       exists w, In w ws /\ start_pos w <= Z.of_nat p < end_pos w) /\
    (no_blank_slice text cs ov = true ->
       covers ws (len text) /\
       forall k w w',
         nth_error ws k = Some w -> nth_error ws (S k) = Some w' ->
         start_pos w' = start_pos w + (cs - ov) /\
         end_pos w - start_pos w' = Z.min ov (len text - start_pos w')).
Proof.
  intros Hcs Hov. eexists. split; [apply segment_closed_form; lia|].
  pose proof (len_nonneg text) as Hn.
  split.
  - intros p c Hp Hc.
    assert (Hlt : Z.of_nat p < len text).
    { unfold len. apply Nat2Z.inj_lt, nth_error_Some. congruence. }
    apply window_for; [lia | lia |].
    assert (0 <= Z.of_nat p / (cs - ov)) by (apply Z.div_pos; lia).
    pose proof (Z.mul_div_le (Z.of_nat p) (cs - ov) ltac:(lia)).
    pose proof (Z.mul_succ_div_gt (Z.of_nat p) (cs - ov) ltac:(lia)).
    apply (nonspace_nonblank text cs _ p c Hp Hc); nia.
  - intros Hall. unfold no_blank_slice in Hall. split.
    + intros p Hp. apply window_for; [lia | lia |].
      rewrite forallb_forall in Hall. apply Hall.
      apply In_starts; [lia | lia |].
      assert (0 <= p / (cs - ov)) by (apply Z.div_pos; lia).
      pose proof (Z.mul_div_le p (cs - ov) ltac:(lia)).
      exists (Z.to_nat (p / (cs - ov))). rewrite Z2Nat.id by assumption. lia.
    + intros k w w'. rewrite (filter_all _ _ Hall), !nth_error_number.
      destruct (nth_error (starts (len text) (cs - ov)) k) as [i|] eqn:Ei;
        [|discriminate].
      destruct (nth_error (starts (len text) (cs - ov)) (S k)) as [i'|] eqn:Ei';
        [|discriminate].
      simpl. intros [= <-] [= <-]. simpl.
      apply nth_error_starts in Ei as [-> _]; [|lia|lia].
      apply nth_error_starts in Ei' as [-> Hlt]; [|lia|lia].
      rewrite Nat2Z.inj_succ in *. lia.
Qed.

Lemma segment_coverage_witness :
  exists ws, segment (lit "abcdefghijk") 10 8 = Ok ws /\
    (forall p c, nth_error (lit "abcdefghijk") p = Some c -> isspace c = false ->
       exists w, In w ws /\ start_pos w <= Z.of_nat p < end_pos w) /\
    (no_blank_slice (lit "abcdefghijk") 10 8 = true ->
       covers ws (len (lit "abcdefghijk")) /\
       forall k w w',
         nth_error ws k = Some w -> nth_error ws (S k) = Some w' ->
         start_pos w' = start_pos w + (10 - 8) /\
         end_pos w - start_pos w' = Z.min 8 (len (lit "abcdefghijk") - start_pos w')).
Proof. apply (segment_coverage (lit "abcdefghijk") 10 8); lia. Defined.

(** ** Properties of the classification *)

Lemma any_in_false_inv (words : list str) (s w : str) :
  any_in words s = false -> In w words -> ~ occurs w s.
Proof.
  intros H Hin Hocc. now rewrite (any_in_true words s w Hin Hocc) in H.
Qed.

(** Rewrites a keyword test to [false] from the hypothesis [H] that no keyword
    of the axis occurs. *)
Ltac no_match H := rewrite any_in_false; [|intros; apply H; rewrite ?in_app_iff; tauto].

(** The offer type is decided by the first group, in the order of the
    [if]/[elif] chain, that has a keyword in the text. *)
Lemma detect_tipo_oferta_priority (s : str) :
  (any_in cloud_words s = true -> detect_tipo_oferta s = "Cloud"%string) /\
  (any_in cloud_words s = false -> any_in seguridad_words s = true ->
   detect_tipo_oferta s = "Seguridad"%string) /\
  (any_in cloud_words s = false -> any_in seguridad_words s = false ->
   any_in telco_words s = true -> detect_tipo_oferta s = "Telco"%string) /\
  (any_in cloud_words s = false -> any_in seguridad_words s = false ->
   any_in telco_words s = false -> detect_tipo_oferta s = "DX"%string).
Proof.
  unfold detect_tipo_oferta. repeat split; intros; repeat
    match goal with H : any_in _ s = _ |- _ => rewrite H; clear H end;
    reflexivity.
Qed.

(** C4: the offer type is that of the first keyword group, in the fixed
    order Cloud, Seguridad, Telco, that has a keyword in the lowered text.
    A Cloud keyword gives Cloud whatever else occurs, so also when a
    Seguridad keyword occurs; without a Cloud keyword a Seguridad keyword
    gives Seguridad, whether or not a Telco keyword occurs; a Telco keyword
    gives Telco only without both; DX is the default. *)
Theorem tipo_oferta_first_group_wins (rt : runtime) (text : str) :
  (forall kc,
     In kc cloud_words -> occurs kc (str_lower rt text) ->
     tipo_oferta (classify rt text) = "Cloud"%string) /\
  (forall ks,
     (forall kc, In kc cloud_words -> ~ occurs kc (str_lower rt text)) ->
     In ks seguridad_words -> occurs ks (str_lower rt text) ->
     tipo_oferta (classify rt text) = "Seguridad"%string) /\
  (forall kt,
     (forall kc, In kc cloud_words -> ~ occurs kc (str_lower rt text)) ->
     (forall ks, In ks seguridad_words -> ~ occurs ks (str_lower rt text)) ->
     In kt telco_words -> occurs kt (str_lower rt text) ->
     tipo_oferta (classify rt text) = "Telco"%string) /\
  ((forall kc, In kc cloud_words -> ~ occurs kc (str_lower rt text)) ->
   (forall ks, In ks seguridad_words -> ~ occurs ks (str_lower rt text)) ->
   (forall kt, In kt telco_words -> ~ occurs kt (str_lower rt text)) ->
   tipo_oferta (classify rt text) = "DX"%string).
Proof.
  unfold classify. cbn [tipo_oferta]. generalize (str_lower rt text) as s. intros s.
  destruct (detect_tipo_oferta_priority s) as (Hcloud & Hseg & Htelco & Hdx).
  repeat split.
  - intros kc Hkc Hc. apply Hcloud. exact (any_in_true _ _ _ Hkc Hc).
  - intros ks Hno Hks Hs. apply Hseg.
    + now apply any_in_false.
    + exact (any_in_true _ _ _ Hks Hs).
  - intros kt Hnoc Hnos Hkt Ht. apply Htelco.
    + now apply any_in_false.
    + now apply any_in_false.
    + exact (any_in_true _ _ _ Hkt Ht).
  - intros Hnoc Hnos Hnot. apply Hdx; now apply any_in_false.
Qed.

Lemma tipo_oferta_first_group_wins_witness :
  tipo_oferta (classify sample_runtime (lit "Azure Firewall")) = "Cloud"%string /\
  tipo_oferta (classify sample_runtime (lit "Fibra y FIREWALL")) = "Seguridad"%string.
Proof.
  split.
  - destruct (tipo_oferta_first_group_wins sample_runtime (lit "Azure Firewall"))
      as (H & _).
    apply (H (lit "azure")).
    + simpl. tauto.
    + exists [], (lit " firewall"). reflexivity.
  - destruct (tipo_oferta_first_group_wins sample_runtime (lit "Fibra y FIREWALL"))
      as (_ & H & _).
    apply (H (lit "firewall")).
    + intros kc Hkc. now apply (any_in_false_inv cloud_words).
    + simpl. tauto.
    + exists (lit "fibra y "), []. reflexivity.
Defined.

(** The same priority further down the chain: Seguridad wins over Telco. *)
Example seguridad_wins_over_telco :
  tipo_oferta (classify sample_runtime (lit "Fibra y FIREWALL")) = "Seguridad"%string.
Proof. reflexivity. Qed.

(** C5: [classify] is a total function to one label per axis; each label is
    one of the axis's literals, and an axis none of whose keywords occurs in
    the lowered text gets its default, DX / Privado / General. *)
Theorem classify_total (rt : runtime) (text : str) :
  In (tipo_oferta (classify rt text)) ["Cloud"; "Seguridad"; "Telco"; "DX"]%string /\
  In (tipo_cliente (classify rt text)) ["Público"; "Privado"]%string /\
  In (sector (classify rt text))
     ["Salud"; "Educación"; "Financiero"; "Industrial"; "General"]%string /\
  ((forall k, In k (cloud_words ++ seguridad_words ++ telco_words) ->
              ~ occurs k (str_lower rt text)) ->
   tipo_oferta (classify rt text) = "DX"%string) /\
  ((forall k, In k publico_words -> ~ occurs k (str_lower rt text)) ->
   tipo_cliente (classify rt text) = "Privado"%string) /\
  ((forall k, In k (salud_words ++ educacion_words ++ financiero_words
                      ++ industrial_words) ->
              ~ occurs k (str_lower rt text)) ->
   sector (classify rt text) = "General"%string).
Proof.
  unfold classify. cbn [tipo_oferta tipo_cliente sector].
  generalize (str_lower rt text) as s. intros s.
  unfold detect_tipo_oferta, detect_tipo_cliente, detect_sector.
  repeat split.
  - destruct (any_in cloud_words s), (any_in seguridad_words s),
      (any_in telco_words s); simpl; tauto.
  - destruct (any_in publico_words s); simpl; tauto.
  - destruct (any_in salud_words s), (any_in educacion_words s),
      (any_in financiero_words s), (any_in industrial_words s); simpl; tauto.
  - intros H. do 3 no_match H. reflexivity.
  - intros H. no_match H. reflexivity.
  - intros H. do 4 no_match H. reflexivity.
Qed.

Lemma classify_total_witness :
  tipo_oferta (classify sample_runtime (lit "Hola Mundo")) = "DX"%string /\
  tipo_cliente (classify sample_runtime (lit "Hola Mundo")) = "Privado"%string /\
  sector (classify sample_runtime (lit "Hola Mundo")) = "General"%string.
Proof.
  destruct (classify_total sample_runtime (lit "Hola Mundo"))
    as (_ & _ & _ & Ho & Hc & Hs).
  split; [apply Ho | split; [apply Hc | apply Hs]]; intros k Hk.
  - now apply (any_in_false_inv (cloud_words ++ seguridad_words ++ telco_words)).
  - now apply (any_in_false_inv publico_words).
  - now apply (any_in_false_inv (salud_words ++ educacion_words
                                   ++ financiero_words ++ industrial_words)).
Defined.

(** ** Properties of the listing and status endpoints *)

(** C8: [listar_ofertas(limit=1, offset=0)] answers 200 with exactly one
    record, the first example, reports two offers in total and sets
    [has_more]. *)
Theorem listar_ofertas_first_page (rt : runtime) (w : world) :
  exists res,
    fst (listar_ofertas rt 1 0 w) = HTTP200 res /\
    List.length (offers res) = 1%nat /\
    map o_rfp_name (offers res) = ["Pliego_Transformacion_Digital.pdf"%string] /\
    total_offers res = 2 /\
    has_more (lr_pagination res) = true.
Proof.
  eexists. split; [reflexivity|]. repeat split.
Qed.

Lemma map_slice {A B} (f : A -> B) (s : list A) (i j : Z) :
  map f (slice s i j) = slice (map f s) i j.
Proof.
  unfold slice, len. now rewrite length_map, skipn_map, firstn_map.
Qed.

Lemma listar_ofertas_static (rt : runtime) (limit offset : Z) (w : world) :
  static_part (fst (handle rt (ListarOfertas limit offset) w)) =
  ListarResponse (HTTP200
    {| lr_status := "success";
       offers := slice static_ejemplos offset (offset + limit);
       total_offers := 2;
       lr_pagination :=
         {| pg_limit := limit; pg_offset := offset;
            has_more := offset + limit <? 2 |} |}).
Proof.
  unfold handle, listar_ofertas, ofertas_ejemplo, bind, ret, uuid4, now.
  cbn [fst snd static_part http_map offers total_offers lr_pagination lr_status].
  rewrite map_slice. reflexivity.
Qed.

(** C9: the status and listing responses do not depend on the requests
    served before, [procesar_pliego] calls included, nor on the state of
    the UUID source and the clock, except in the fields read from those
    two; the status endpoint always reports DX / Público / General for the
    identifier it is given. *)
Theorem lookups_independent_of_history (rt1 rt2 : runtime)
    (history1 history2 : list request) (w1 w2 : world) :
  (forall offer_id,
     static_part (response_after rt1 history1 (ObtenerEstadoOferta offer_id) w1)
     = static_part (response_after rt2 history2 (ObtenerEstadoOferta offer_id) w2)
     /\ exists res,
          response_after rt1 history1 (ObtenerEstadoOferta offer_id) w1
          = EstadoResponse (HTTP200 res)
          /\ er_offer_id res = offer_id
          /\ er_classification res =
             {| tipo_oferta := "DX"; tipo_cliente := "Público"; sector := "General" |})
  /\
  (forall limit offset,
     static_part (response_after rt1 history1 (ListarOfertas limit offset) w1)
     = static_part (response_after rt2 history2 (ListarOfertas limit offset) w2)).
Proof.
  split.
  - intros offer_id. split; [reflexivity|].
    eexists. split; [reflexivity|]. split; reflexivity.
  - intros limit offset. unfold response_after.
    now rewrite !listar_ofertas_static.
Qed.

(** A lookup of the identifier a [procesar_pliego] call has just returned
    is answered like a lookup in a fresh process. *)
Example lookup_after_procesar_pliego :
  static_part (response_after sample_runtime
                 [ProcesarPliego (PliegoRequest_of (lit "migracion a azure"))]
                 (ObtenerEstadoOferta "OFF-01234567-202412151200") w0)
  = static_part (response_after sample_runtime []
                 (ObtenerEstadoOferta "OFF-01234567-202412151200") w0)
  /\ fst (procesar_pliego sample_runtime
            (PliegoRequest_of (lit "migracion a azure")) w0)
     = HTTP200
         {| pr_offer_id := "OFF-01234567-202412151200";
            pr_status := "success";
            pr_rfp_name := Some "pliego.pdf"%string;
            pr_classification :=
              {| tipo_oferta := "Cloud"; tipo_cliente := "Privado";
                 sector := "General" |};
            pr_normativas := ["RGPD"%string];
            chunks_created := 1;
            pr_chunks_info :=
              {| total_chunks := 1; info_chunk_size := 2000;
                 info_chunk_overlap := 200; total_characters := 17 |};
            pr_timestamp := "2024-12-15T12:00:00";
            auto_generation_result := Some offer_sections |}.
Proof. split; reflexivity. Qed.

(** ** Defaulting of the chunking parameters *)

Lemma or_default_nonzero (x : option Z) (d : Z) : d <> 0 -> or_default x d <> 0.
Proof.
  intros Hd. unfold or_default. destruct x as [v|]; [|assumption].
  destruct (Z.eqb_spec v 0); assumption.
Qed.

(** C10: an explicit 0 for [chunk_size] or [chunk_overlap] is replaced by
    2000 or 200; the effective overlap is never 0; the handler answers 200
    exactly when the two effective values differ, and [chunks_info] then
    echoes the effective values. *)
Theorem procesar_pliego_defaults (rt : runtime) (request : PliegoRequest) (w : world) :
  (chunk_size request = Some 0 -> effective_chunk_size request = 2000) /\
  (chunk_overlap request = Some 0 -> effective_overlap request = 200) /\
  effective_overlap request <> 0 /\
  (effective_chunk_size request <> effective_overlap request ->
   exists res, fst (procesar_pliego rt request w) = HTTP200 res) /\
  (forall res,
     fst (procesar_pliego rt request w) = HTTP200 res ->
     effective_chunk_size request <> effective_overlap request /\
     info_chunk_size (pr_chunks_info res) = or_default (chunk_size request) 2000 /\
     info_chunk_overlap (pr_chunks_info res) = or_default (chunk_overlap request) 200 /\
     info_chunk_overlap (pr_chunks_info res) <> 0).
Proof.
  assert (Hov : effective_overlap request <> 0)
    by (apply or_default_nonzero; lia).
  split; [|split; [|split; [exact Hov|]]].
  - unfold effective_chunk_size. now intros ->.
  - unfold effective_overlap. now intros ->.
  - unfold procesar_pliego, bind, ret, uuid4, now. cbn [fst snd].
    unfold segment, range.
    destruct (Z.eqb_spec (effective_chunk_size request - effective_overlap request) 0)
      as [E|E]; cbn [fst snd]; split.
    + intros H. lia.
    + intros res H. discriminate H.
    + intros _. eexists. reflexivity.
    + intros res [= <-]. cbn. repeat split; [lia | exact Hov].
Qed.

Lemma procesar_pliego_defaults_witness :
  effective_chunk_size
    {| rfp_content := lit "hola mundo"; rfp_name := None; auto_generate := None;
       chunk_size := Some 0; chunk_overlap := Some 0 |} = 2000 /\
  effective_overlap
    {| rfp_content := lit "hola mundo"; rfp_name := None; auto_generate := None;
       chunk_size := Some 0; chunk_overlap := Some 0 |} = 200.
Proof.
  destruct (procesar_pliego_defaults sample_runtime
    {| rfp_content := lit "hola mundo"; rfp_name := None; auto_generate := None;
       chunk_size := Some 0; chunk_overlap := Some 0 |} w0) as (Hs & Ho & _).
  split; [apply Hs | apply Ho]; reflexivity.
Defined.

(** A request for zero overlap is answered with the default overlap. *)
Example zero_overlap_is_defaulted :
  option_map (fun res => (info_chunk_size (pr_chunks_info res),
                          info_chunk_overlap (pr_chunks_info res),
                          chunks_created res))
    (match fst (procesar_pliego sample_runtime
                  {| rfp_content := lit "hola mundo"; rfp_name := None;
                     auto_generate := None;
                     chunk_size := Some 4; chunk_overlap := Some 0 |} w0) with
     | HTTP200 res => Some res
     | HTTP500 _ => None
     end)
  = Some (4, 200, 0).
Proof. reflexivity. Qed.

(** * Further properties of the handlers

    In what follows [HTTP200 b] is a handler returning the result [b], and
    [HTTP500 d] is its [except] clause raising [HTTPException(500, d)].
    What the framework does before a handler is called (parsing and
    validating the request) and after it returns (encoding the result) is
    not part of the model. *)

(** ** Algebra of slices with non-negative bounds *)

Lemma slice_nat (A : Type) (l : list A) (i j : Z) :
  0 <= i -> 0 <= j ->
  slice l i j = firstn (Z.to_nat j - Z.to_nat i) (skipn (Z.to_nat i) l).
Proof.
  intros Hi Hj. rewrite slice_from by assumption.
  pose proof (len_nonneg l) as Hn. unfold len in *.
  destruct (Z.le_gt_cases i (Z.of_nat (List.length l))) as [Hin|Hin].
  - rewrite (Z.min_l i) by lia.
    destruct (Z.le_gt_cases j (Z.of_nat (List.length l))) as [Hjn|Hjn].
    + rewrite Z.min_l by lia. f_equal. lia.
    + rewrite Z.min_r by lia.
      rewrite !firstn_all2; try reflexivity; rewrite length_skipn; lia.
  - rewrite (skipn_all2 (n := Z.to_nat i)) by lia.
    rewrite (skipn_all2 (n := Z.to_nat (Z.min i _))) by lia.
    now rewrite !firstn_nil.
Qed.

Lemma firstn_add_skipn (A : Type) (p q : nat) (l : list A) :
  firstn p l ++ firstn q (skipn p l) = firstn (p + q) l.
Proof.
  revert l. induction p as [|p IH]; intros l; [reflexivity|].
  destruct l as [|a l]; simpl.
  - now rewrite firstn_nil.
  - now rewrite IH.
Qed.

(** Adjacent slices concatenate. *)
Lemma slice_app (A : Type) (l : list A) (a b c : Z) :
  0 <= a <= b -> b <= c -> slice l a b ++ slice l b c = slice l a c.
Proof.
  intros Hab Hbc. rewrite !slice_nat by lia.
  replace (Z.to_nat b) with (Z.to_nat b - Z.to_nat a + Z.to_nat a)%nat at 3 by lia.
  rewrite <- skipn_skipn, firstn_add_skipn. f_equal. lia.
Qed.

Lemma skipn_slice (A : Type) (l : list A) (i j : Z) (d : nat) :
  0 <= i -> 0 <= j -> skipn d (slice l i j) = slice l (i + Z.of_nat d) j.
Proof.
  intros Hi Hj. rewrite !slice_nat by lia.
  rewrite skipn_firstn_comm, skipn_skipn. f_equal; [lia | f_equal; lia].
Qed.

Lemma firstn_slice (A : Type) (l : list A) (i j : Z) (m : nat) :
  0 <= i -> 0 <= j ->
  firstn m (slice l i j) = slice l i (Z.min (i + Z.of_nat m) j).
Proof.
  intros Hi Hj. rewrite !slice_nat by lia.
  rewrite firstn_firstn. f_equal. lia.
Qed.

Lemma slice_length (A : Type) (l : list A) (i j : Z) :
  0 <= i <= len l -> i <= j -> len (slice l i j) = Z.min j (len l) - i.
Proof.
  intros Hi Hj. rewrite slice_from by lia. unfold len in *.
  rewrite length_firstn, length_skipn. lia.
Qed.

Lemma forallb_firstn_skipn (A : Type) (f : A -> bool) (n : nat) (l : list A) :
  forallb f l = true ->
  forallb f (firstn n l) = true /\ forallb f (skipn n l) = true.
Proof.
  intros H. rewrite <- (firstn_skipn n l), forallb_app in H.
  now apply andb_true_iff in H.
Qed.

Lemma forallb_slice (A : Type) (f : A -> bool) (l : list A) (i j : Z) :
  forallb f l = true -> forallb f (slice l i j) = true.
Proof.
  intros H. unfold slice.
  apply forallb_firstn_skipn. now apply forallb_firstn_skipn.
Qed.

Lemma negb_forallb {A} (f : A -> bool) (l : list A) :
  negb (forallb f l) = existsb (fun x => negb (f x)) l.
Proof.
  induction l as [|a l IH]; simpl; [reflexivity|].
  now rewrite negb_andb, IH.
Qed.

Lemma In_number_inv (text : str) (cs k : Z) (idx : list Z) (w : chunk) :
  In w (number text cs k idx) ->
  exists k' i, In i idx /\ w = chunk_at text cs k' i.
Proof.
  revert k. induction idx as [|i idx IH]; intros k; simpl; [tauto|].
  intros [<- | H].
  - exists k, i. auto.
  - destruct (IH _ H) as (k' & i' & Hi & ->). exists k', i'. auto.
Qed.

(** An emitted window comes from a stride index whose slice passed the
    whitespace test. *)
Lemma segment_In (text : str) (cs ov : Z) (ws : list chunk) (w : chunk) :
  0 < cs - ov -> segment text cs ov = Ok ws -> In w ws ->
  exists (k' : Z) (j : nat),
    w = chunk_at text cs k' (Z.of_nat j * (cs - ov)) /\
    Z.of_nat j * (cs - ov) < len text /\
    nonblank_at text cs (Z.of_nat j * (cs - ov)) = true.
Proof.
  intros Hs Hseg Hin. rewrite segment_closed_form in Hseg by assumption.
  injection Hseg as <-.
  apply In_number_inv in Hin as (k' & i & Hi & ->).
  apply filter_In in Hi as [Hi Hnb].
  apply In_starts in Hi as [j [-> Hlt]]; [|lia|apply len_nonneg].
  exists k', j. auto.
Qed.

(** ** More on the chunking loop *)

(** X1: under a valid configuration every emitted window is well formed:
    it starts at a multiple of the stride, inside the text; it ends at
    min(start + chunk_size, len); its content is exactly the text between
    its two offsets; its size is the length of that content, between 1 and
    chunk_size; and the content has a non-whitespace character. *)
Theorem segment_chunk_well_formed (text : str) (cs ov : Z)
    (ws : list chunk) (w : chunk) :
  0 < cs -> 0 <= ov < cs -> segment text cs ov = Ok ws -> In w ws ->
  (exists j : nat, start_pos w = Z.of_nat j * (cs - ov)) /\
  0 <= start_pos w < end_pos w /\
  end_pos w = Z.min (start_pos w + cs) (len text) /\
  content w = firstn (Z.to_nat (end_pos w - start_pos w))
                     (skipn (Z.to_nat (start_pos w)) text) /\
  size w = len (content w) /\
  size w = end_pos w - start_pos w /\
  1 <= size w <= cs /\
  existsb (fun c => negb (isspace c)) (content w) = true.
Proof.
  intros Hcs Hov Hseg Hin.
  destruct (segment_In text cs ov ws w ltac:(lia) Hseg Hin) as (k' & j & -> & Hlt & Hnb).
  pose proof (len_nonneg text) as Hn.
  set (i := Z.of_nat j * (cs - ov)) in *.
  assert (Hi : 0 <= i) by (subst i; nia).
  assert (Hlen : len (slice text i (i + cs)) = Z.min (i + cs) (len text) - i)
    by (apply slice_length; lia).
  cbn [start_pos end_pos content size chunk_at].
  split; [now exists j|]. split; [lia|]. split; [reflexivity|].
  split.
  { rewrite slice_from by lia. rewrite (Z.min_l i) by lia. reflexivity. }
  split; [reflexivity|]. split; [exact Hlen|]. split; [lia|].
  unfold nonblank_at in Hnb. rewrite truthy_strip, negb_forallb in Hnb. exact Hnb.
Qed.

Lemma segment_chunk_well_formed_witness :
  size (chunk_at (lit "abcdefghijk") 10 2 7) = 4 /\
  end_pos (chunk_at (lit "abcdefghijk") 10 2 7) = 11.
Proof.
  destruct (segment_chunk_well_formed (lit "abcdefghijk") 10 3
              [chunk_at (lit "abcdefghijk") 10 1 0; chunk_at (lit "abcdefghijk") 10 2 7]
              (chunk_at (lit "abcdefghijk") 10 2 7))
    as (_ & _ & He & _ & _ & Hs & _).
  - lia.
  - lia.
  - reflexivity.
  - simpl. tauto.
  - rewrite Hs, He. split; reflexivity.
Defined.

Lemma segment_length_le (text : str) (cs ov : Z) (ws : list chunk) :
  0 < cs - ov -> segment text cs ov = Ok ws ->
  len ws <= len (starts (len text) (cs - ov)).
Proof.
  intros Hs Hseg. rewrite segment_closed_form in Hseg by lia.
  injection Hseg as <-.
  pose proof (filter_length_le (nonblank_at text cs) (starts (len text) (cs - ov))).
  unfold len in *. rewrite number_length. lia.
Qed.

Lemma starts_length (n step : Z) :
  0 < step -> 0 <= n -> len (starts n step) = (n + step - 1) / step.
Proof.
  intros Hs Hn. unfold starts, len. rewrite length_map, length_seq.
  apply Z2Nat.id, Z.div_pos; lia.
Qed.

(** X2: the number of windows is at most ceil(len / stride), and exactly
    that when no slice is whitespace-only. *)
Theorem segment_count (text : str) (cs ov : Z) (ws : list chunk) :
  0 < cs -> 0 <= ov < cs -> segment text cs ov = Ok ws ->
  len ws <= (len text + (cs - ov) - 1) / (cs - ov) /\
  (no_blank_slice text cs ov = true ->
   len ws = (len text + (cs - ov) - 1) / (cs - ov)).
Proof.
  intros Hcs Hov Hseg. pose proof (len_nonneg text) as Hn.
  rewrite <- starts_length by lia. split.
  - apply segment_length_le; [lia | assumption].
  - intros Hall. rewrite segment_closed_form in Hseg by lia.
    injection Hseg as <-. unfold no_blank_slice in Hall.
    rewrite (filter_all _ _ Hall). unfold len. now rewrite number_length.
Qed.

Lemma segment_count_witness :
  len [chunk_at (lit "a     b") 3 1 0; chunk_at (lit "a     b") 3 2 4;
       chunk_at (lit "a     b") 3 3 6] <= 4.
Proof.
  apply (segment_count (lit "a     b") 3 1); [lia | lia | reflexivity].
Defined.

Lemma segment_nil_blank (text : str) (cs ov : Z) :
  0 < cs - ov <= cs ->
  segment text cs ov = Ok [] <-> forallb isspace text = true.
Proof.
  intros Hs. rewrite segment_closed_form by lia. split.
  - intros [= H]. apply forallb_forall. intros c Hc.
    destruct (isspace c) eqn:E; [reflexivity|].
    apply In_nth_error in Hc as [p Hp].
    assert (Hlt : Z.of_nat p < len text).
    { unfold len. apply Nat2Z.inj_lt, nth_error_Some. congruence. }
    assert (0 <= Z.of_nat p / (cs - ov)) by (apply Z.div_pos; lia).
    pose proof (Z.mul_div_le (Z.of_nat p) (cs - ov) ltac:(lia)).
    pose proof (Z.mul_succ_div_gt (Z.of_nat p) (cs - ov) ltac:(lia)).
    destruct (window_for text cs (cs - ov) (Z.of_nat p)) as [w [Hw _]];
      [lia | lia | | rewrite H in Hw; destruct Hw].
    apply (nonspace_nonblank text cs _ p c Hp E); nia.
  - intros Hb. f_equal.
    replace (filter (nonblank_at text cs) (starts (len text) (cs - ov))) with (@nil Z);
      [reflexivity|].
    symmetry. induction (starts (len text) (cs - ov)) as [|i l IH]; [reflexivity|].
    simpl. unfold nonblank_at at 1.
    rewrite truthy_strip, (forallb_slice _ _ _ _ _ Hb). exact IH.
Qed.

(** X3: under a valid configuration no window is emitted exactly when the
    text is empty or whitespace-only. *)
Theorem segment_nil_iff_blank (text : str) (cs ov : Z) :
  0 < cs -> 0 <= ov < cs ->
  segment text cs ov = Ok [] <-> forallb isspace text = true.
Proof.
  intros Hcs Hov. apply segment_nil_blank. lia.
Qed.

Lemma segment_nil_iff_blank_witness :
  segment (lit "   ") 2 1 = Ok [].
Proof.
  apply (segment_nil_iff_blank (lit "   ") 2 1); [lia | lia | reflexivity].
Defined.

Lemma number_contents (text : str) (cs k : Z) (idx : list Z) :
  map content (number text cs k idx) = map (fun i => slice text i (i + cs)) idx.
Proof.
  revert k. induction idx as [|i idx IH]; intros k; simpl; [|rewrite IH]; reflexivity.
Qed.

(** The slices of one stride each, taken at the first [m] stride indices,
    concatenate to the text up to the [m]-th index. *)
Lemma stride_concat (A : Type) (l : list A) (step : Z) (m : nat) :
  0 < step ->
  List.concat (map (fun k => slice l (Z.of_nat k * step) (Z.of_nat k * step + step))
              (seq 0 m))
  = slice l 0 (Z.of_nat m * step).
Proof.
  intros Hs. induction m as [|m IH].
  - simpl. unfold slice, clamp. simpl. now rewrite Z.sub_diag.
  - rewrite seq_S, map_app, concat_app, IH. cbn [map List.concat Nat.add].
    rewrite app_nil_r, slice_app by nia. f_equal. lia.
Qed.

(** X4: when no slice is whitespace-only, the text is recovered from the
    windows by concatenating the first stride-many characters of each
    window's content. *)
Theorem segment_reconstructs (text : str) (cs ov : Z) (ws : list chunk) :
  0 < cs -> 0 <= ov < cs ->
  no_blank_slice text cs ov = true ->
  segment text cs ov = Ok ws ->
  List.concat (map (fun w => firstn (Z.to_nat (cs - ov)) (content w)) ws) = text.
Proof.
  intros Hcs Hov Hall Hseg. rewrite segment_closed_form in Hseg by lia.
  injection Hseg as <-. unfold no_blank_slice in Hall.
  rewrite (filter_all _ _ Hall).
  rewrite <- (map_map content (firstn (Z.to_nat (cs - ov)))), number_contents.
  unfold starts. rewrite !map_map.
  pose proof (len_nonneg text) as Hn.
  rewrite (map_ext _ (fun k => slice text (Z.of_nat k * (cs - ov))
                                 (Z.of_nat k * (cs - ov) + (cs - ov)))).
  - rewrite stride_concat by lia. apply slice_prefix.
    assert (0 <= (len text + (cs - ov) - 1) / (cs - ov)) by (apply Z.div_pos; lia).
    pose proof (Z.mul_succ_div_gt (len text + (cs - ov) - 1) (cs - ov) ltac:(lia)).
    nia.
  - intros k. rewrite firstn_slice by nia. f_equal. lia.
Qed.

Lemma segment_reconstructs_witness :
  List.concat (map (fun w => firstn (Z.to_nat (10 - 8)) (content w))
    (map (fun k => chunk_at (lit "abcdefghijk") 10 (Z.of_nat k + 1) (Z.of_nat k * 2))
         (seq 0 6)))
  = lit "abcdefghijk".
Proof.
  apply (segment_reconstructs (lit "abcdefghijk") 10 8); [lia | lia | | ]; reflexivity.
Defined.

(** X7: when no slice is whitespace-only, what a window holds after its
    first stride-many characters is exactly the first overlap-many
    characters of the next window (all of it, if it is shorter). *)
Theorem segment_overlap_content (text : str) (cs ov : Z) (ws : list chunk)
    (k : nat) (w w' : chunk) :
  0 < cs -> 0 <= ov < cs ->
  no_blank_slice text cs ov = true ->
  segment text cs ov = Ok ws ->
  nth_error ws k = Some w -> nth_error ws (S k) = Some w' ->
  skipn (Z.to_nat (cs - ov)) (content w) = firstn (Z.to_nat ov) (content w').
Proof.
  intros Hcs Hov Hall Hseg. rewrite segment_closed_form in Hseg by lia.
  injection Hseg as <-. unfold no_blank_slice in Hall.
  rewrite (filter_all _ _ Hall), !nth_error_number.
  pose proof (len_nonneg text) as Hn.
  destruct (nth_error (starts (len text) (cs - ov)) k) as [i|] eqn:Ei;
    [|discriminate].
  destruct (nth_error (starts (len text) (cs - ov)) (S k)) as [i'|] eqn:Ei';
    [|discriminate].
  simpl. intros [= <-] [= <-]. cbn [content chunk_at].
  apply nth_error_starts in Ei as [-> _]; [|lia|lia].
  apply nth_error_starts in Ei' as [-> _]; [|lia|lia].
  rewrite skipn_slice, firstn_slice by nia.
  rewrite !Z2Nat.id by lia. f_equal; lia.
Qed.

Lemma segment_overlap_content_witness :
  skipn (Z.to_nat (10 - 8)) (content (chunk_at (lit "abcdefghijk") 10 1 0))
  = firstn (Z.to_nat 8) (content (chunk_at (lit "abcdefghijk") 10 2 2)).
Proof.
  apply (segment_overlap_content (lit "abcdefghijk") 10 8
           (map (fun k => chunk_at (lit "abcdefghijk") 10 (Z.of_nat k + 1) (Z.of_nat k * 2))
                (seq 0 6)) 0);
    [lia | lia | | | | ]; reflexivity.
Defined.

(** X5: a negative chunk size is not rejected.  With chunk_size < 0 and
    overlap < chunk_size the stride is positive, the loop runs, and every
    window it emits reports an end offset chunk_size before its start. *)
Theorem segment_negative_chunk_size (text : str) (cs ov : Z) :
  cs < 0 -> ov < cs ->
  exists ws, segment text cs ov = Ok ws /\
    forall w, In w ws ->
      end_pos w = start_pos w + cs /\ end_pos w < start_pos w.
Proof.
  intros Hcs Hov. eexists. split; [apply segment_closed_form; lia|].
  intros w Hin. apply In_number_inv in Hin as (k' & i & Hi & ->).
  apply filter_In in Hi as [Hi _].
  apply In_starts in Hi as [j [-> Hlt]]; [|lia|apply len_nonneg].
  cbn [start_pos end_pos chunk_at]. lia.
Qed.

Lemma segment_negative_chunk_size_witness :
  exists ws, segment (lit "abcdefghijk") (-5) (-10) = Ok ws /\
    forall w, In w ws ->
      end_pos w = start_pos w + (-5) /\ end_pos w < start_pos w.
Proof. apply (segment_negative_chunk_size (lit "abcdefghijk") (-5) (-10)); lia. Defined.

(** The one window of that call: six letters, reported as [0, -5). *)
Example segment_negative_chunk_size_run :
  segment (lit "abcdefghijk") (-5) (-10)
  = Ok [ {| id := 1; content := lit "abcdef"; size := 6;
            start_pos := 0; end_pos := -5 |} ].
Proof. reflexivity. Qed.

(** ** More on the classification *)

Lemma any_in_spec (words : list str) (s : str) :
  any_in words s = true <-> mentions words s.
Proof.
  unfold mentions. split.
  - intros H. unfold any_in in H. apply existsb_exists in H as [k [Hk Hc]].
    exists k. split; [assumption | now apply contains_spec].
  - intros [k [Hk Hc]]. exact (any_in_true _ _ _ Hk Hc).
Qed.

Lemma any_in_not (words : list str) (s : str) :
  any_in words s = false <-> ~ mentions words s.
Proof.
  rewrite <- any_in_spec. destruct (any_in words s); split; intros H;
    try reflexivity; try discriminate; try (intros H'; discriminate H').
  now destruct H.
Qed.

Ltac by_cases_on_keywords :=
  repeat match goal with
         | |- context [any_in ?ws ?s] => destruct (any_in ws s)
         end;
  repeat split; intros; try reflexivity; try discriminate;
  repeat match goal with
         | H : _ /\ _ |- _ => destruct H
         end;
  try discriminate; try congruence.

(** X15: the offer type as a decision table over keyword occurrences:
    Cloud exactly when a Cloud keyword occurs; Seguridad exactly when none
    does and a Seguridad keyword occurs; Telco exactly when neither does
    and a Telco keyword occurs; DX exactly when no keyword of the three
    groups occurs. *)
Theorem tipo_oferta_table (rt : runtime) (text : str) :
  (tipo_oferta (classify rt text) = "Cloud"%string <->
     mentions cloud_words (str_lower rt text)) /\
  (tipo_oferta (classify rt text) = "Seguridad"%string <->
     ~ mentions cloud_words (str_lower rt text) /\
     mentions seguridad_words (str_lower rt text)) /\
  (tipo_oferta (classify rt text) = "Telco"%string <->
     ~ mentions cloud_words (str_lower rt text) /\
     ~ mentions seguridad_words (str_lower rt text) /\
     mentions telco_words (str_lower rt text)) /\
  (tipo_oferta (classify rt text) = "DX"%string <->
     ~ mentions cloud_words (str_lower rt text) /\
     ~ mentions seguridad_words (str_lower rt text) /\
     ~ mentions telco_words (str_lower rt text)).
Proof.
  unfold classify. cbn [tipo_oferta]. generalize (str_lower rt text) as s. intros s.
  rewrite <- !any_in_not, <- !any_in_spec. unfold detect_tipo_oferta.
  by_cases_on_keywords.
Qed.

(** X16: the sector as a decision table: the first of Salud, Educación,
    Financiero, Industrial one of whose keywords occurs, and General
    exactly when none occurs. *)
Theorem sector_table (rt : runtime) (text : str) :
  (sector (classify rt text) = "Salud"%string <->
     mentions salud_words (str_lower rt text)) /\
  (sector (classify rt text) = "Educación"%string <->
     ~ mentions salud_words (str_lower rt text) /\
     mentions educacion_words (str_lower rt text)) /\
  (sector (classify rt text) = "Financiero"%string <->
     ~ mentions salud_words (str_lower rt text) /\
     ~ mentions educacion_words (str_lower rt text) /\
     mentions financiero_words (str_lower rt text)) /\
  (sector (classify rt text) = "Industrial"%string <->
     ~ mentions salud_words (str_lower rt text) /\
     ~ mentions educacion_words (str_lower rt text) /\
     ~ mentions financiero_words (str_lower rt text) /\
     mentions industrial_words (str_lower rt text)) /\
  (sector (classify rt text) = "General"%string <->
     ~ mentions salud_words (str_lower rt text) /\
     ~ mentions educacion_words (str_lower rt text) /\
     ~ mentions financiero_words (str_lower rt text) /\
     ~ mentions industrial_words (str_lower rt text)).
Proof.
  unfold classify. cbn [sector]. generalize (str_lower rt text) as s. intros s.
  rewrite <- !any_in_not, <- !any_in_spec. unfold detect_sector.
  by_cases_on_keywords.
Qed.

Lemma occurs_trans (k s s' : str) : occurs k s -> occurs s s' -> occurs k s'.
Proof.
  intros (p & q & ->) (p' & q' & ->). exists (p' ++ p), (q ++ q').
  now rewrite <- !app_assoc.
Qed.

Lemma mentions_mono (words : list str) (s s' : str) :
  occurs s s' -> mentions words s -> mentions words s'.
Proof.
  intros Hs (k & Hk & Ho). exists k. split; [assumption|].
  exact (occurs_trans _ _ _ Ho Hs).
Qed.

(** X17: the first label of each axis survives embedding: if the lowered
    form of [text] occurs inside the lowered form of [text'], then Cloud,
    Público and Salud carry over from [text] to [text']. *)
Theorem first_labels_stable (rt : runtime) (text text' : str) :
  occurs (str_lower rt text) (str_lower rt text') ->
  (tipo_oferta (classify rt text) = "Cloud"%string ->
   tipo_oferta (classify rt text') = "Cloud"%string) /\
  (tipo_cliente (classify rt text) = "Público"%string ->
   tipo_cliente (classify rt text') = "Público"%string) /\
  (sector (classify rt text) = "Salud"%string ->
   sector (classify rt text') = "Salud"%string).
Proof.
  intros Hocc. unfold classify. cbn [tipo_oferta tipo_cliente sector].
  unfold detect_tipo_oferta, detect_tipo_cliente, detect_sector.
  repeat split;
    match goal with
    | |- context [any_in ?ws (str_lower rt text)] =>
        destruct (any_in ws (str_lower rt text)) eqn:E;
        [ apply any_in_spec in E;
          apply (mentions_mono _ _ _ Hocc), any_in_spec in E;
          rewrite E; reflexivity
        | ]
    end; by_cases_on_keywords.
Qed.

Lemma first_labels_stable_witness :
  tipo_oferta (classify sample_runtime (lit "Oferta AZURE 2024")) = "Cloud"%string.
Proof.
  apply (first_labels_stable sample_runtime (lit "azure") (lit "Oferta AZURE 2024")).
  - exists (lit "oferta "), (lit " 2024"). reflexivity.
  - reflexivity.
Defined.

(** The later labels do not: Telco turns into Cloud when a Cloud keyword is
    appended. *)
Example telco_not_stable :
  tipo_oferta (classify sample_runtime (lit "fibra")) = "Telco"%string /\
  tipo_oferta (classify sample_runtime (lit "fibra aws")) = "Cloud"%string.
Proof. split; reflexivity. Qed.

(** ** More on [procesar_pliego] *)

Lemma procesar_pliego_result (rt : runtime) (request : PliegoRequest) (w : world)
    (res : pliego_result) :
  fst (procesar_pliego rt request w) = HTTP200 res ->
  exists chunks,
    segment (rfp_content request) (effective_chunk_size request)
            (effective_overlap request) = Ok chunks /\
    chunks_created res = len chunks /\
    total_chunks (pr_chunks_info res) = len chunks /\
    total_characters (pr_chunks_info res) = len (rfp_content request) /\
    pr_classification res = classify rt (rfp_content request) /\
    pr_normativas res =
      (if String.eqb (tipo_cliente (classify rt (rfp_content request))) "Público"
       then ["RGPD"; "ENS"] else ["RGPD"])%string /\
    auto_generation_result res =
      (if is_true (auto_generate request) then Some offer_sections else None).
Proof.
  unfold procesar_pliego, bind, ret, uuid4, now. cbn [fst snd].
  destruct (segment _ _ _) as [chunks|e]; cbn [fst]; [|discriminate].
  intros [= <-]. exists chunks. cbn. repeat split.
Qed.

(** X8: a 200 response of [procesar_pliego] is consistent with its input:
    both chunk counts are the number of windows of the chunking loop,
    [total_characters] is the length of the text, RGPD is always among the
    regulations and ENS exactly when a public-sector keyword occurs in the
    lowered text, and the auto-generation block is present exactly when
    [auto_generate] is true. *)
Theorem procesar_pliego_consistent (rt : runtime) (request : PliegoRequest)
    (w : world) (res : pliego_result) :
  fst (procesar_pliego rt request w) = HTTP200 res ->
  exists chunks,
    segment (rfp_content request) (effective_chunk_size request)
            (effective_overlap request) = Ok chunks /\
    chunks_created res = len chunks /\
    total_chunks (pr_chunks_info res) = len chunks /\
    total_characters (pr_chunks_info res) = len (rfp_content request) /\
    pr_classification res = classify rt (rfp_content request) /\
    In "RGPD"%string (pr_normativas res) /\
    (In "ENS"%string (pr_normativas res) <->
     mentions publico_words (str_lower rt (rfp_content request))) /\
    (auto_generation_result res = Some offer_sections <->
     auto_generate request = Some true) /\
    (auto_generation_result res = None <-> auto_generate request <> Some true).
Proof.
  intros H.
  destruct (procesar_pliego_result rt request w res H)
    as (chunks & Hseg & Hc & Ht & Hn & Hcl & Hnorm & Hauto).
  exists chunks. rewrite Hc, Ht, Hn, Hcl, Hnorm, Hauto.
  do 5 (split; [reflexivity || assumption|]).
  unfold classify. cbn [tipo_cliente]. unfold detect_tipo_cliente.
  rewrite <- any_in_spec.
  destruct (any_in publico_words _); destruct (auto_generate request) as [[|]|];
    cbn; repeat split; intros; try tauto; try discriminate; try congruence;
    repeat match goal with H : _ \/ _ |- _ => destruct H end;
    try discriminate; try tauto.
Qed.

Lemma procesar_pliego_consistent_witness :
  exists res,
    fst (procesar_pliego sample_runtime
           (PliegoRequest_of (lit "Pliego del Ayuntamiento")) w0) = HTTP200 res /\
    In "ENS"%string (pr_normativas res).
Proof.
  eexists. split; [reflexivity|].
  destruct (procesar_pliego_consistent sample_runtime
              (PliegoRequest_of (lit "Pliego del Ayuntamiento")) w0 _ eq_refl)
    as (chunks & _ & _ & _ & _ & _ & _ & Hens & _).
  apply Hens. exists (lit "ayuntamiento"). split; [simpl; tauto|].
  exists (lit "pliego del "), []. reflexivity.
Defined.

(** X9: on a request that leaves the chunking parameters at their defaults
    the body of [procesar_pliego] never raises: it returns a result, which
    echoes 2000 and 200, reports at most ceil(len / 1800) chunks, and
    reports zero chunks exactly when the text is empty or
    whitespace-only. *)
Theorem procesar_pliego_default_request (rt : runtime) (request : PliegoRequest)
    (w : world) :
  (chunk_size request = Some 2000 \/ chunk_size request = None) ->
  (chunk_overlap request = Some 200 \/ chunk_overlap request = None) ->
  exists res,
    fst (procesar_pliego rt request w) = HTTP200 res /\
    info_chunk_size (pr_chunks_info res) = 2000 /\
    info_chunk_overlap (pr_chunks_info res) = 200 /\
    0 <= chunks_created res <= (len (rfp_content request) + 1799) / 1800 /\
    (chunks_created res = 0 <-> forallb isspace (rfp_content request) = true).
Proof.
  intros Hcs Hov.
  assert (Es : effective_chunk_size request = 2000)
    by (unfold effective_chunk_size; destruct Hcs as [-> | ->]; reflexivity).
  assert (Eo : effective_overlap request = 200)
    by (unfold effective_overlap; destruct Hov as [-> | ->]; reflexivity).
  unfold procesar_pliego, bind, ret, uuid4, now. cbn [fst snd].
  rewrite Es, Eo.
  destruct (segment (rfp_content request) 2000 200) as [chunks|e] eqn:Hseg.
  - eexists. split; [reflexivity|]. cbn.
    split; [reflexivity|]. split; [reflexivity|].
    pose proof (segment_length_le _ 2000 200 chunks ltac:(lia) Hseg) as Hle.
    rewrite starts_length in Hle by (auto using len_nonneg; lia).
    change (2000 - 200) with 1800 in Hle.
    replace (len (rfp_content request) + 1800 - 1) with
      (len (rfp_content request) + 1799) in Hle by lia.
    split; [pose proof (len_nonneg chunks); lia|].
    rewrite <- (segment_nil_blank _ 2000 200) by lia. rewrite Hseg.
    destruct chunks; split; intros H; try reflexivity; discriminate.
  - rewrite segment_closed_form in Hseg by lia. discriminate.
Qed.

Lemma procesar_pliego_default_request_witness :
  exists res,
    fst (procesar_pliego sample_runtime (PliegoRequest_of (lit "hola mundo")) w0)
      = HTTP200 res /\
    info_chunk_size (pr_chunks_info res) = 2000 /\
    info_chunk_overlap (pr_chunks_info res) = 200 /\
    0 <= chunks_created res <= (len (lit "hola mundo") + 1799) / 1800 /\
    (chunks_created res = 0 <-> forallb isspace (lit "hola mundo") = true).
Proof.
  apply (procesar_pliego_default_request sample_runtime
           (PliegoRequest_of (lit "hola mundo")) w0); left; reflexivity.
Defined.

(** ** The group of handlers as a whole *)

Lemma procesar_pliego_200 (rt : runtime) (request : PliegoRequest) (w : world) :
  effective_chunk_size request <> effective_overlap request ->
  exists res, fst (procesar_pliego rt request w) = HTTP200 res.
Proof.
  intros Hne. unfold procesar_pliego, bind, ret, uuid4, now. cbn [fst snd].
  unfold segment, range.
  destruct (Z.eqb_spec (effective_chunk_size request - effective_overlap request) 0);
    [lia|]. eexists. reflexivity.
Qed.

(** X10: among the five handlers that catch exceptions, the only body that
    raises is that of [procesar_pliego] on a stride of zero; its [except]
    clause then raises [HTTPException(500)] with the message of [range] as
    detail.  On every other request the handler returns its result. *)
Theorem ofertas_500_iff_zero_stride (rt : runtime) (q : ofertas_request) (w : world) :
  (is_500 (fst (ofertas_handle rt q w)) = true <->
   exists r, q = Basic (ProcesarPliego r) /\
             effective_chunk_size r = effective_overlap r) /\
  (is_500 (fst (ofertas_handle rt q w)) = true ->
   fst (ofertas_handle rt q w) =
   BasicResponse (PliegoResponse (HTTP500 "range() arg 3 must not be zero"))).
Proof.
  destruct q as [[r | o | l o] | o | o f].
  - assert (E : fst (ofertas_handle rt (Basic (ProcesarPliego r)) w) =
                BasicResponse (PliegoResponse (fst (procesar_pliego rt r w)))).
    { unfold ofertas_handle, handle, bind, ret.
      now destruct (procesar_pliego rt r w). }
    rewrite E.
    destruct (Z.eq_dec (effective_chunk_size r) (effective_overlap r)) as [Heq|Hne].
    + rewrite (procesar_pliego_zero_stride rt r w Heq). cbn. split; [|reflexivity].
      split; [intros _; now exists r | reflexivity].
    + destruct (procesar_pliego_200 rt r w Hne) as [res ->]. cbn.
      split; [|discriminate]. split; [discriminate|].
      intros (r' & [= <-] & Heq). contradiction.
  - cbn. split; [|discriminate]. split; [discriminate | intros (r & H & _); discriminate H].
  - cbn. split; [|discriminate]. split; [discriminate | intros (r & H & _); discriminate H].
  - cbn. split; [|discriminate]. split; [discriminate | intros (r & H & _); discriminate H].
  - cbn. split; [|discriminate]. split; [discriminate | intros (r & H & _); discriminate H].
Qed.

(** X11: the five handlers are stateless.  Whatever requests a process has
    served before, and whatever the state of the UUID source and the clock,
    the response to a request is the same in every field not read from
    those two: for [procesar_pliego] the classification, the regulations,
    the chunk counts and the echoed parameters depend on the request
    alone. *)
Theorem ofertas_stateless (rt : runtime) (history1 history2 : list ofertas_request)
    (w1 w2 : world) (q : ofertas_request) :
  ofertas_static (fst (ofertas_handle rt q (snd (ofertas_serve rt history1 w1)))) =
  ofertas_static (fst (ofertas_handle rt q (snd (ofertas_serve rt history2 w2)))).
Proof.
  generalize (snd (ofertas_serve rt history1 w1)) as a.
  generalize (snd (ofertas_serve rt history2 w2)) as b. intros b a.
  destruct q as [[r | o | l o] | o | o f]; try reflexivity.
  - unfold ofertas_handle, handle, procesar_pliego, bind, ret, uuid4, now.
    cbn [fst snd]. destruct (segment _ _ _); reflexivity.
  - assert (E : forall x, ofertas_static (fst (ofertas_handle rt (Basic (ListarOfertas l o)) x))
                = BasicResponse (static_part (fst (handle rt (ListarOfertas l o) x)))).
    { intros x. reflexivity. }
    now rewrite !E, !listar_ofertas_static.
Qed.

(** ** More on [listar_ofertas] *)

Lemma listar_ofertas_page (rt : runtime) (limit offset : Z) (w : world) :
  page_of (fst (listar_ofertas rt limit offset w)) =
    Some (slice static_ejemplos offset (offset + limit)) /\
  has_more_of (fst (listar_ofertas rt limit offset w)) = Some (offset + limit <? 2).
Proof.
  unfold listar_ofertas, ofertas_ejemplo, bind, ret, uuid4, now.
  cbn [fst snd page_of has_more_of offers lr_pagination has_more].
  rewrite map_slice. split; reflexivity.
Qed.

(** X12: for a non-negative offset and limit the page holds
    min(limit, max(0, 2 - offset)) records; [has_more] is true exactly when
    offset + limit < 2, in which case the page is full (limit records), and
    otherwise the page reaches the end of the list. *)
Theorem listar_ofertas_page_size (rt : runtime) (limit offset : Z) (w : world) :
  0 <= offset -> 0 <= limit ->
  exists page more,
    page_of (fst (listar_ofertas rt limit offset w)) = Some page /\
    has_more_of (fst (listar_ofertas rt limit offset w)) = Some more /\
    len page = Z.min limit (Z.max 0 (2 - offset)) /\
    (more = true <-> offset + limit < 2) /\
    (more = true -> len page = limit) /\
    (more = false -> offset + len page = Z.max offset 2).
Proof.
  intros Ho Hl. destruct (listar_ofertas_page rt limit offset w) as [-> ->].
  do 2 eexists. split; [reflexivity|]. split; [reflexivity|].
  assert (Hlen : len (slice static_ejemplos offset (offset + limit)) =
                 Z.min limit (Z.max 0 (2 - offset))).
  { rewrite slice_nat by lia. unfold len.
    rewrite length_firstn, length_skipn. simpl List.length. lia. }
  rewrite Hlen. destruct (Z.ltb_spec (offset + limit) 2); repeat split;
    intros; try discriminate; lia.
Qed.

Lemma listar_ofertas_page_size_witness :
  exists page more,
    page_of (fst (listar_ofertas sample_runtime 5 1 w0)) = Some page /\
    has_more_of (fst (listar_ofertas sample_runtime 5 1 w0)) = Some more /\
    len page = Z.min 5 (Z.max 0 (2 - 1)) /\
    (more = true <-> 1 + 5 < 2) /\
    (more = true -> len page = 5) /\
    (more = false -> 1 + len page = Z.max 1 2).
Proof. apply (listar_ofertas_page_size sample_runtime 5 1 w0); lia. Defined.

(** X13: adjacent pages concatenate: for a non-negative offset and limits,
    the page at [offset] of [limit1] records followed by the page at
    [offset + limit1] of [limit2] records is the page at [offset] of
    [limit1 + limit2] records, whichever processes served the three
    requests. *)
Theorem listar_ofertas_pages_concat (rt1 rt2 rt3 : runtime) (w1 w2 w3 : world)
    (offset limit1 limit2 : Z) :
  0 <= offset -> 0 <= limit1 -> 0 <= limit2 ->
  exists p1 p2 p,
    page_of (fst (listar_ofertas rt1 limit1 offset w1)) = Some p1 /\
    page_of (fst (listar_ofertas rt2 limit2 (offset + limit1) w2)) = Some p2 /\
    page_of (fst (listar_ofertas rt3 (limit1 + limit2) offset w3)) = Some p /\
    p1 ++ p2 = p.
Proof.
  intros Ho H1 H2.
  destruct (listar_ofertas_page rt1 limit1 offset w1) as [-> _].
  destruct (listar_ofertas_page rt2 limit2 (offset + limit1) w2) as [-> _].
  destruct (listar_ofertas_page rt3 (limit1 + limit2) offset w3) as [-> _].
  do 3 eexists. repeat (split; [reflexivity|]).
  rewrite slice_app by lia. f_equal. lia.
Qed.

Lemma listar_ofertas_pages_concat_witness :
  exists p1 p2 p,
    page_of (fst (listar_ofertas sample_runtime 1 0 w0)) = Some p1 /\
    page_of (fst (listar_ofertas sample_runtime 1 (0 + 1) w0)) = Some p2 /\
    page_of (fst (listar_ofertas sample_runtime (1 + 1) 0 w0)) = Some p /\
    p1 ++ p2 = p.
Proof.
  apply (listar_ofertas_pages_concat sample_runtime sample_runtime sample_runtime
           w0 w0 w0 0 1 1); lia.
Defined.

(** X14: a negative offset is not rejected and counts from the end of the
    list.  For every limit > 0 the request with offset = -limit gets an
    empty page although [has_more] is true. *)
Theorem listar_ofertas_negative_offset (rt : runtime) (limit : Z) (w : world) :
  0 < limit ->
  page_of (fst (listar_ofertas rt limit (- limit) w)) = Some [] /\
  has_more_of (fst (listar_ofertas rt limit (- limit) w)) = Some true.
Proof.
  intros Hl. destruct (listar_ofertas_page rt limit (- limit) w) as [-> ->].
  replace (- limit + limit) with 0 by lia. split; [|reflexivity].
  f_equal. unfold slice, clamp.
  destruct (Z.ltb_spec (- limit) 0); [|lia].
  change (len static_ejemplos) with 2. cbn [Z.ltb Z.compare Z.min].
  replace (Z.to_nat (0 - Z.max 0 (- limit + 2))) with 0%nat by lia.
  reflexivity.
Qed.

Lemma listar_ofertas_negative_offset_witness :
  page_of (fst (listar_ofertas sample_runtime 1 (- 1) w0)) = Some [] /\
  has_more_of (fst (listar_ofertas sample_runtime 1 (- 1) w0)) = Some true.
Proof. apply (listar_ofertas_negative_offset sample_runtime 1 w0). lia. Defined.

(** ** Window ids and offsets *)

Lemma filter_map_comm {A B} (f : B -> bool) (g : A -> B) (l : list A) :
  filter f (map g l) = map g (filter (fun x => f (g x)) l).
Proof.
  induction l as [|a l IH]; simpl; [reflexivity|].
  destruct (f (g a)); simpl; now rewrite IH.
Qed.

Lemma nth_error_filter_seq (f : nat -> bool) (m a j x : nat) :
  nth_error (filter f (seq a m)) j = Some x -> (a + j <= x)%nat.
Proof.
  revert a j. induction m as [|m IH]; intros a j; simpl.
  - destruct j; discriminate.
  - destruct (f a).
    + destruct j as [|j]; simpl.
      * intros [= <-]. lia.
      * intros H. apply IH in H. lia.
    + intros H. apply IH in H. lia.
Qed.

(** X6: under a valid configuration a window's id bounds its offset from
    below: start_pos >= (id - 1) * stride; when no slice is whitespace-only
    the id locates the window: start_pos = (id - 1) * stride. *)
Theorem segment_id_locates (text : str) (cs ov : Z) (ws : list chunk) (w : chunk) :
  0 < cs -> 0 <= ov < cs -> segment text cs ov = Ok ws -> In w ws ->
  (id w - 1) * (cs - ov) <= start_pos w /\
  (no_blank_slice text cs ov = true -> start_pos w = (id w - 1) * (cs - ov)).
Proof.
  intros Hcs Hov Hseg Hin. rewrite segment_closed_form in Hseg by lia.
  injection Hseg as <-. pose proof (len_nonneg text) as Hn.
  apply In_nth_error in Hin as [j Hj]. rewrite nth_error_number in Hj.
  split.
  - unfold starts in Hj. rewrite filter_map_comm, nth_error_map in Hj.
    destruct (nth_error (filter _ (seq 0 _)) j) as [x|] eqn:Ex; [|discriminate].
    cbn [option_map] in Hj.
    assert (Hw : chunk_at text cs (1 + Z.of_nat j) (Z.of_nat x * (cs - ov)) = w)
      by congruence.
    rewrite <- Hw. apply nth_error_filter_seq in Ex.
    unfold chunk_at, id, start_pos.
    replace (1 + Z.of_nat j - 1) with (Z.of_nat j) by lia.
    apply Z.mul_le_mono_nonneg_r; lia.
  - intros Hall. unfold no_blank_slice in Hall. rewrite (filter_all _ _ Hall) in Hj.
    destruct (nth_error (starts (len text) (cs - ov)) j) as [i|] eqn:Ei; [|discriminate].
    cbn [option_map] in Hj.
    assert (Hw : chunk_at text cs (1 + Z.of_nat j) i = w) by congruence.
    rewrite <- Hw. apply nth_error_starts in Ei as [-> _]; [|lia|lia].
    unfold chunk_at, id, start_pos. f_equal. lia.
Qed.

Lemma segment_id_locates_witness :
  (id (chunk_at (lit "a     b") 3 2 4) - 1) * (3 - 1)
  <= start_pos (chunk_at (lit "a     b") 3 2 4).
Proof.
  apply (segment_id_locates (lit "a     b") 3 1
           [chunk_at (lit "a     b") 3 1 0; chunk_at (lit "a     b") 3 2 4;
            chunk_at (lit "a     b") 3 3 6]).
  - lia.
  - lia.
  - reflexivity.
  - simpl. tauto.
Defined.
